(** * Screen recorder: capture session controller and recordings service

    A shallow embedding of the React component [App] (the capture session
    controller) and of the Express server (the recordings service).

    How the JavaScript is read:
    - A React render fixes the values of the state variables seen by every
      function created in that render.  A handler therefore takes the state
      of the render that created it (its closure, an [AppState]) next to the
      machine it runs on; reads of state variables go to the closure, calls
      of the [useState] setters go to the machine.
    - Platform objects (tracks, streams, recorders, object URLs) live in the
      machine; every call into the platform that the properties speak about
      is appended to the log [calls].
    - The outcome of each platform request made by [startRecording] is
      supplied by a [Platform] record; the handler runs to completion on it.
    - After each event the component renders: [commit] runs the clean-up of
      the [stream] effect and the timer effect when their dependency changed.

    The repository holds three versions of [App].  Their timer effect,
    [startRecording], [stopRecording], [handleUpload] and the handlers
    installed on the recorder and on the screen's video track do the same
    thing, statement for statement; the embedding follows the first one, and
    the buttons are enabled as its JSX renders them. *)

From Stdlib Require Import ZArith Lia Ascii.
From stdpp Require Import base strings list gmap pretty sorting.

Local Open Scope string_scope.
Local Open Scope list_scope.

(** ** Platform objects *)

Inductive TrackKind := video | audio.

#[global] Instance TrackKind_eq_dec : EqDecision TrackKind.
Proof. solve_decision. Defined.

Record Track := { tid : nat; kind : TrackKind }.

#[global] Instance Track_eq_dec : EqDecision Track.
Proof. solve_decision. Defined.

(** A [MediaStream] object: its identity and the tracks it holds. *)
Record MediaStream := { sid : nat; tracks : list Track }.

#[global] Instance MediaStream_eq_dec : EqDecision MediaStream.
Proof. solve_decision. Defined.

Definition is_video (t : Track) : bool :=
  match kind t with video => true | audio => false end.
Definition is_audio (t : Track) : bool :=
  match kind t with audio => true | video => false end.

Definition getTracks (s : MediaStream) : list Track := tracks s.
Definition getVideoTracks (s : MediaStream) : list Track :=
  List.filter is_video (tracks s).
Definition getAudioTracks (s : MediaStream) : list Track :=
  List.filter is_audio (tracks s).

Record Blob := { blob_data : list Byte.byte; blob_type : string }.

Definition blob_size (b : Blob) : nat := length (blob_data b).

(** [new Blob(parts, { type })]: the parts one after the other. *)
Definition newBlob (parts : list Blob) (type : string) : Blob :=
  {| blob_data := List.concat (List.map blob_data parts); blob_type := type |}.

Inductive RecordingState := inactive | recording | paused.

#[global] Instance RecordingState_eq_dec : EqDecision RecordingState.
Proof. solve_decision. Defined.

(** Calls into the platform, in the order they are made. *)
Inductive Call :=
| TrackStop (t : Track)
| GetDisplayMedia
| GetUserMedia
| NewMediaStream (s : MediaStream)
| NewMediaRecorder (r : nat) (s : MediaStream) (mimeType : string)
| RecorderStart (r : nat) (timeslice : Z)
| RecorderStop (r : nat)
| CreateObjectURL (b : Blob)
| AxiosPost (b : Blob)
| Alert (msg : string).

#[global] Instance Call_track_stop_dec (t : Track) (c : Call) :
  Decision (c = TrackStop t).
Proof.
  destruct c as [t'| | | | | | | | |];
    try (right; discriminate).
  destruct (decide (t' = t)) as [->|Hne]; [left; reflexivity|right; congruence].
Defined.

(** Number of [stop()] calls a track has received in a log. *)
Definition stops (t : Track) (log : list Call) : nat :=
  length (List.filter (fun c => bool_decide (c = TrackStop t)) log).

(** ** The component *)

Module App.

Definition MAX_RECORDING_TIME : Z := 180.

(** The [useState] variables of [App]. *)
Record AppState := {
  isRecording : bool;
  mediaRecorder : option nat;
  recordedChunks : list Blob;
  recordingUrl : option nat;
  uploadStatus : string;
  refreshKey : nat;
  recordingTime : Z;
  stream : option MediaStream;
  error : string
}.

Definition initialState : AppState :=
  {| isRecording := false; mediaRecorder := None; recordedChunks := [];
     recordingUrl := None; uploadStatus := ""; refreshKey := 0;
     recordingTime := 0; stream := None; error := "" |}.

(** A [MediaRecorder] object together with what the handlers installed on it
    by [startRecording] have captured. *)
Record Recorder := {
  rec_state : RecordingState;
  rec_stop_queued : bool;
  rec_stream : MediaStream;
  rec_mimeType : string;
  rec_chunks : list Blob;
  rec_display : MediaStream;
  rec_closure : AppState
}.

Record Machine := {
  st : AppState;
  recorders : list Recorder;
  objectUrls : list Blob;
  videoRef : option (option MediaStream);
  timerRef : option AppState;
  calls : list Call
}.

Definition initialMachine : Machine :=
  {| st := initialState; recorders := []; objectUrls := [];
     videoRef := None; timerRef := None; calls := [] |}.

(** *** Setters *)

Definition setIsRecording (v : bool) (s : AppState) : AppState :=
  {| isRecording := v; mediaRecorder := mediaRecorder s;
     recordedChunks := recordedChunks s; recordingUrl := recordingUrl s;
     uploadStatus := uploadStatus s; refreshKey := refreshKey s;
     recordingTime := recordingTime s; stream := stream s; error := error s |}.

Definition setMediaRecorder (v : option nat) (s : AppState) : AppState :=
  {| isRecording := isRecording s; mediaRecorder := v;
     recordedChunks := recordedChunks s; recordingUrl := recordingUrl s;
     uploadStatus := uploadStatus s; refreshKey := refreshKey s;
     recordingTime := recordingTime s; stream := stream s; error := error s |}.

Definition setRecordedChunks (v : list Blob) (s : AppState) : AppState :=
  {| isRecording := isRecording s; mediaRecorder := mediaRecorder s;
     recordedChunks := v; recordingUrl := recordingUrl s;
     uploadStatus := uploadStatus s; refreshKey := refreshKey s;
     recordingTime := recordingTime s; stream := stream s; error := error s |}.

Definition setRecordingUrl (v : option nat) (s : AppState) : AppState :=
  {| isRecording := isRecording s; mediaRecorder := mediaRecorder s;
     recordedChunks := recordedChunks s; recordingUrl := v;
     uploadStatus := uploadStatus s; refreshKey := refreshKey s;
     recordingTime := recordingTime s; stream := stream s; error := error s |}.

Definition setUploadStatus (v : string) (s : AppState) : AppState :=
  {| isRecording := isRecording s; mediaRecorder := mediaRecorder s;
     recordedChunks := recordedChunks s; recordingUrl := recordingUrl s;
     uploadStatus := v; refreshKey := refreshKey s;
     recordingTime := recordingTime s; stream := stream s; error := error s |}.

Definition setRefreshKey (f : nat -> nat) (s : AppState) : AppState :=
  {| isRecording := isRecording s; mediaRecorder := mediaRecorder s;
     recordedChunks := recordedChunks s; recordingUrl := recordingUrl s;
     uploadStatus := uploadStatus s; refreshKey := f (refreshKey s);
     recordingTime := recordingTime s; stream := stream s; error := error s |}.

Definition setRecordingTime (v : Z) (s : AppState) : AppState :=
  {| isRecording := isRecording s; mediaRecorder := mediaRecorder s;
     recordedChunks := recordedChunks s; recordingUrl := recordingUrl s;
     uploadStatus := uploadStatus s; refreshKey := refreshKey s;
     recordingTime := v; stream := stream s; error := error s |}.

Definition setStream (v : option MediaStream) (s : AppState) : AppState :=
  {| isRecording := isRecording s; mediaRecorder := mediaRecorder s;
     recordedChunks := recordedChunks s; recordingUrl := recordingUrl s;
     uploadStatus := uploadStatus s; refreshKey := refreshKey s;
     recordingTime := recordingTime s; stream := v; error := error s |}.

Definition setError (v : string) (s : AppState) : AppState :=
  {| isRecording := isRecording s; mediaRecorder := mediaRecorder s;
     recordedChunks := recordedChunks s; recordingUrl := recordingUrl s;
     uploadStatus := uploadStatus s; refreshKey := refreshKey s;
     recordingTime := recordingTime s; stream := stream s; error := v |}.

(** A setter call made by a handler: it changes the machine's state, not the
    closure the handler reads from. *)
Definition setState (f : AppState -> AppState) (m : Machine) : Machine :=
  {| st := f (st m); recorders := recorders m; objectUrls := objectUrls m;
     videoRef := videoRef m; timerRef := timerRef m; calls := calls m |}.

Definition withRecorders (rs : list Recorder) (m : Machine) : Machine :=
  {| st := st m; recorders := rs; objectUrls := objectUrls m;
     videoRef := videoRef m; timerRef := timerRef m; calls := calls m |}.

Definition withTimer (t : option AppState) (m : Machine) : Machine :=
  {| st := st m; recorders := recorders m; objectUrls := objectUrls m;
     videoRef := videoRef m; timerRef := t; calls := calls m |}.

Definition call (cs : list Call) (m : Machine) : Machine :=
  {| st := st m; recorders := recorders m; objectUrls := objectUrls m;
     videoRef := videoRef m; timerRef := timerRef m; calls := calls m ++ cs |}.

(** [if (videoRef.current) videoRef.current.srcObject = v] *)
Definition setSrcObject (v : option MediaStream) (m : Machine) : Machine :=
  match videoRef m with
  | Some _ =>
      {| st := st m; recorders := recorders m; objectUrls := objectUrls m;
         videoRef := Some v; timerRef := timerRef m; calls := calls m |}
  | None => m
  end.

(** [URL.createObjectURL(blob)]: the URL is the blob's place in the store. *)
Definition createObjectURL (b : Blob) (m : Machine) : nat * Machine :=
  (length (objectUrls m),
   {| st := st m; recorders := recorders m; objectUrls := objectUrls m ++ [b];
      videoRef := videoRef m; timerRef := timerRef m;
      calls := calls m ++ [CreateObjectURL b] |}).

(** [s.getTracks().forEach(track => track.stop())] *)
Definition stopTracks (s : MediaStream) (m : Machine) : Machine :=
  call (List.map TrackStop (getTracks s)) m.

(** [recorder.stop()]: the recorder becomes inactive at once and its [stop]
    event is queued. *)
Definition recorderStop (r : nat) (R : Recorder) (m : Machine) : Machine :=
  call [RecorderStop r]
    (withRecorders
       (<[r := {| rec_state := inactive; rec_stop_queued := true;
                  rec_stream := rec_stream R; rec_mimeType := rec_mimeType R;
                  rec_chunks := rec_chunks R; rec_display := rec_display R;
                  rec_closure := rec_closure R |}]> (recorders m)) m).

(** *** stopRecording *)

Definition stopRecording (c : AppState) (m : Machine) : Machine :=
  let m1 :=
    match mediaRecorder c with
    | Some r =>
        match recorders m !! r with
        | Some R =>
            if bool_decide (rec_state R = recording) then recorderStop r R m
            else m
        | None => m
        end
    | None => m
    end in
  let m2 := setState (setIsRecording false) m1 in
  let m3 :=
    match stream c with
    | Some s => setState (setStream None) (stopTracks s m2)
    | None => m2
    end in
  setSrcObject None m3.

(** *** startRecording *)

(** What the platform answers to the requests of one [startRecording] call.
    [inl msg] is a rejected promise whose error carries [msg]. *)
Record Platform := {
  hasGetDisplayMedia : bool;
  getDisplayMedia : string + MediaStream;
  getUserMedia : string + MediaStream;
  newStreamId : nat;
  isTypeSupported : string -> bool
}.

Definition vp9 : string := "video/webm;codecs=vp9".
Definition webm : string := "video/webm".

(** The reset block that opens [startRecording]. *)
Definition resetRecording (m : Machine) : Machine :=
  setState (setError "")
    (setState (setUploadStatus "")
       (setState (setRecordingTime 0)
          (setState (setRecordingUrl None)
             (setState (setRecordedChunks []) m)))).

(** The [catch] block of [startRecording]; [stream] is read from the
    closure. *)
Definition catchStart (c : AppState) (message : string) (m : Machine) : Machine :=
  let m1 := setState (setError ("Failed to start recording: " +:+ message)) m in
  match stream c with
  | Some s => setState (setStream None) (stopTracks s m1)
  | None => m1
  end.

(** The stream handed to the encoder, and the platform calls made to build
    it. *)
Definition combinedStream (p : Platform) (displayStream : MediaStream)
  : MediaStream * list Call :=
  match getUserMedia p with
  | inr micStream =>
      let audioTracks :=
        getAudioTracks displayStream ++ getAudioTracks micStream in
      let s := {| sid := newStreamId p;
                  tracks := getVideoTracks displayStream ++ audioTracks |} in
      (s, [GetUserMedia; NewMediaStream s])
  | inl _ => (displayStream, [GetUserMedia])
  end.

(** [new MediaRecorder(combinedStream, { mimeType, ... })] with the handlers
    of this call: the new object is inactive and its chunk buffer empty. *)
Definition newMediaRecorder (c : AppState) (combined displayStream : MediaStream)
    (mimeType : string) (m : Machine) : nat * Machine :=
  let r := length (recorders m) in
  (r, call [NewMediaRecorder r combined mimeType]
        (withRecorders
           (recorders m ++
              [{| rec_state := inactive; rec_stop_queued := false;
                  rec_stream := combined; rec_mimeType := mimeType;
                  rec_chunks := []; rec_display := displayStream;
                  rec_closure := c |}]) m)).

(** [recorder.start(1000)] *)
Definition recorderStart (r : nat) (timeslice : Z) (m : Machine) : Machine :=
  match recorders m !! r with
  | Some R =>
      call [RecorderStart r timeslice]
        (withRecorders
           (<[r := {| rec_state := recording;
                      rec_stop_queued := rec_stop_queued R;
                      rec_stream := rec_stream R;
                      rec_mimeType := rec_mimeType R;
                      rec_chunks := rec_chunks R;
                      rec_display := rec_display R;
                      rec_closure := rec_closure R |}]> (recorders m)) m)
  | None => m
  end.

(** The body of [startRecording] below its reset block, with the [catch]
    block at each place an exception is thrown. *)
Definition acquireAndRecord (c : AppState) (p : Platform) (m : Machine) : Machine :=
  if negb (hasGetDisplayMedia p) then
    catchStart c
      "Screen recording is not supported in this browser. Please use Chrome or Edge."
      m
  else
    let m := call [GetDisplayMedia] m in
    match getDisplayMedia p with
    | inl message => catchStart c message m
    | inr displayStream =>
        let '(combined, cs) := combinedStream p displayStream in
        let m := call cs m in
        let m := setState (setStream (Some combined)) m in
        if negb (isTypeSupported p vp9) && negb (isTypeSupported p webm) then
          catchStart c "WebM recording is not supported in this browser." m
        else
          let mimeType := if isTypeSupported p vp9 then vp9 else webm in
          let '(r, m) := newMediaRecorder c combined displayStream mimeType m in
          match getVideoTracks displayStream with
          | [] =>
              catchStart c
                "Cannot set properties of undefined (setting 'onended')" m
          | _ :: _ =>
              let m := recorderStart r 1000 m in
              let m := setState (setMediaRecorder (Some r)) m in
              let m := setState (setIsRecording true) m in
              setSrcObject (Some displayStream) m
          end
    end.

Definition startRecording (c : AppState) (p : Platform) (m : Machine) : Machine :=
  acquireAndRecord c p (resetRecording m).

(** *** Handlers installed by startRecording *)

(** [recorder.ondataavailable] *)
Definition ondataavailable (r : nat) (data : option Blob) (m : Machine) : Machine :=
  match recorders m !! r, data with
  | Some R, Some d =>
      if (0 <? blob_size d)%nat then
        withRecorders
          (<[r := {| rec_state := rec_state R;
                     rec_stop_queued := rec_stop_queued R;
                     rec_stream := rec_stream R;
                     rec_mimeType := rec_mimeType R;
                     rec_chunks := rec_chunks R ++ [d];
                     rec_display := rec_display R;
                     rec_closure := rec_closure R |}]> (recorders m)) m
      else m
  | _, _ => m
  end.

(** [recorder.onstop] *)
Definition onstop (r : nat) (m : Machine) : Machine :=
  match recorders m !! r with
  | Some R =>
      let blob := newBlob (rec_chunks R) (rec_mimeType R) in
      let '(url, m) := createObjectURL blob m in
      let m := setState (setRecordingUrl (Some url)) m in
      let m := setState (setRecordedChunks [blob]) m in
      let m := stopTracks (rec_stream R) m in
      setState (setStream None) m
  | None => m
  end.

(** [recorder.onerror]; [stopRecording] is the one of the closure. *)
Definition onerror (r : nat) (message : string) (m : Machine) : Machine :=
  match recorders m !! r with
  | Some R =>
      stopRecording (rec_closure R)
        (setState (setError ("Recording error: " +:+ message)) m)
  | None => m
  end.

(** [displayStream.getVideoTracks()[0].onended]; [isRecording] and
    [stopRecording] are those of the closure. *)
Definition onended (r : nat) (m : Machine) : Machine :=
  match recorders m !! r with
  | Some R =>
      if isRecording (rec_closure R) then stopRecording (rec_closure R) m
      else m
  | None => m
  end.

(** *** handleUpload and clearRecording *)

Inductive UploadFailure := NetworkError | Timeout | BadStatus (code : nat).

(** How the promise of [axios.post] settles. *)
Inductive AxiosResult := resolved | rejected (why : UploadFailure).

Definition handleUpload (c : AppState) (res : AxiosResult) (m : Machine) : Machine :=
  match recordedChunks c with
  | [] => call [Alert "No recording available to upload."] m
  | blob :: _ =>
      let m := setState (setUploadStatus "uploading") m in
      let m := call [AxiosPost blob] m in
      match res with
      | resolved =>
          let m := setState (setUploadStatus "success") m in
          setState (setRefreshKey S) m
      | rejected _ => setState (setUploadStatus "error") m
      end
  end.

(** The callback both branches of [handleUpload] hand to [setTimeout]. *)
Definition uploadStatusTimeout (m : Machine) : Machine :=
  setState (setUploadStatus "") m.

Definition clearRecording (m : Machine) : Machine :=
  let m := setState (setRecordingUrl None) m in
  let m := setState (setRecordedChunks []) m in
  let m := setState (setUploadStatus "") m in
  let m := setState (setError "") m in
  let m := setState (setRecordingTime 0) m in
  setSrcObject None m.

(** *** Effects *)

(** The function given to [setRecordingTime] by the interval callback;
    [stopRecording] is the one of the render that installed the interval. *)
Definition intervalTick (c : AppState) (m : Machine) : Machine :=
  let prevTime := recordingTime (st m) in
  let newTime := (prevTime + 1)%Z in
  if (newTime >=? MAX_RECORDING_TIME)%Z then
    setState (setRecordingTime MAX_RECORDING_TIME) (stopRecording c m)
  else setState (setRecordingTime newTime) m.

(** The timer effect, run when [isRecording] has changed: the previous
    interval is cleared and a new one installed if recording. *)
Definition timerEffect (m : Machine) : Machine :=
  if isRecording (st m) then withTimer (Some (st m)) m else withTimer None m.

(** Clean-up of the [stream] effect of the previous render. *)
Definition streamCleanup (prev : AppState) (m : Machine) : Machine :=
  match stream prev with
  | Some s => stopTracks s m
  | None => m
  end.

(** The render that follows a handler: effects whose dependency changed are
    cleaned up and run again. *)
Definition commit (prev : AppState) (m : Machine) : Machine :=
  let m := if decide (stream prev = stream (st m)) then m
           else streamCleanup prev m in
  if bool_decide (isRecording prev = isRecording (st m)) then m
  else timerEffect m.

(** *** The event loop *)

Inductive Event :=
| ClickStart (p : Platform)
| ClickRecordAnother (p : Platform)
| ClickStop
| ClickUpload (res : AxiosResult)
| ClickClear
| UploadStatusTimeout
| Tick
| DataAvailable (r : nat) (data : option Blob)
| RecorderStopped (r : nat)
| RecorderError (r : nat) (message : string)
| TrackEnded (r : nat).

Definition hasUrl (s : AppState) : bool :=
  match recordingUrl s with Some _ => true | None => false end.

(** The platform side of a [stop] event: the recorder is inactive and no
    further [stop] is pending. *)
Definition stopDelivered (r : nat) (m : Machine) : Machine :=
  match recorders m !! r with
  | Some R =>
      withRecorders
        (<[r := {| rec_state := inactive; rec_stop_queued := false;
                   rec_stream := rec_stream R; rec_mimeType := rec_mimeType R;
                   rec_chunks := rec_chunks R; rec_display := rec_display R;
                   rec_closure := rec_closure R |}]> (recorders m)) m
  | None => m
  end.

(** One event: a button is there only when the current render shows it, and
    its handler is the one of that render. *)
Definition handle (e : Event) (m : Machine) : Machine :=
  let s := st m in
  match e with
  | ClickStart p =>
      if negb (isRecording s) && negb (hasUrl s) then startRecording s p m
      else m
  | ClickRecordAnother p =>
      if hasUrl s && negb (isRecording s) then
        startRecording s p (clearRecording m)
      else m
  | ClickStop => if isRecording s then stopRecording s m else m
  | ClickUpload res =>
      if hasUrl s && negb (isRecording s)
         && negb (bool_decide (uploadStatus s = "uploading"))
      then handleUpload s res m else m
  | ClickClear =>
      if hasUrl s && negb (isRecording s) then clearRecording m else m
  | UploadStatusTimeout => uploadStatusTimeout m
  | Tick =>
      match timerRef m with
      | Some c => intervalTick c m
      | None => m
      end
  | DataAvailable r data => ondataavailable r data m
  | RecorderStopped r => onstop r (stopDelivered r m)
  | RecorderError r message => onerror r message m
  | TrackEnded r => onended r m
  end.

Definition step (e : Event) (m : Machine) : Machine :=
  commit (st m) (handle e m).

Definition run (es : list Event) (m : Machine) : Machine :=
  fold_left (fun m e => step e m) es m.

(** *** What the render shows of the timer *)

(** [s.padStart(n, c)] for a one-character pad string. *)
Definition padStart (n : nat) (c : Ascii.ascii) (s : string) : string :=
  Nat.iter (n - String.length s) (String c) s.

(** [formatTime]: [Math.floor(seconds / 60)] and [seconds % 60], each
    printed in decimal and padded to two characters. *)
Definition formatTime (seconds : Z) : string :=
  let mins := (seconds / 60)%Z in
  let secs := Z.rem seconds 60 in
  padStart 2 "0"%char (pretty mins) +:+ ":" +:+
  padStart 2 "0"%char (pretty secs).

Definition timeRemaining (s : AppState) : Z :=
  (MAX_RECORDING_TIME - recordingTime s)%Z.

End App.

(** ** The recordings service *)

Module Server.

(** A row of the table [recordings]. *)
Record Row := {
  id : nat;
  filename : string;
  size : N;
  created_at : N;
  updated_at : N
}.

(** The table with its [AUTO_INCREMENT] counter, and the directory
    [uploadsDir]. *)
Record State := {
  recordings : list Row;
  auto_increment : nat;
  uploads : gmap string (list Byte.byte)
}.

(** What one request reads from outside the program: [Date.now()],
    [Math.round(Math.random() * 1E9)], [CURRENT_TIMESTAMP], and whether the
    database answers [db.execute]. *)
Record Outside := {
  now : N;
  random : N;
  current_timestamp : N;
  db_ok : bool
}.

Inductive Response :=
| Json (status : nat) (message : string)
| Created (message : string) (recordingId : nat)
| Rows (rows : list Row)
| Stream (contentType : string) (body : list Byte.byte)
| MulterError.

(** [limits.fileSize] of the multer configuration. *)
Definition fileSize : N := 100 * 1024 * 1024.

(** [filename] of [multer.diskStorage] for the field [video]. *)
Definition storageFilename (fieldname : string) (o : Outside) : string :=
  let uniqueSuffix := pretty (now o) +:+ "-" +:+ pretty (random o) in
  fieldname +:+ "-" +:+ uniqueSuffix +:+ ".webm".

Definition writeFile (name : string) (body : list Byte.byte) (s : State) : State :=
  {| recordings := recordings s; auto_increment := auto_increment s;
     uploads := <[name := body]> (uploads s) |}.

(** [INSERT INTO recordings (filename, size) VALUES (?, ?)]: the result
    carries the new row's id. *)
Definition insertRecording (name : string) (sz : N) (o : Outside) (s : State)
  : nat * State :=
  let insertId := auto_increment s in
  (insertId,
   {| recordings :=
        recordings s ++
          [{| id := insertId; filename := name; size := sz;
              created_at := current_timestamp o;
              updated_at := current_timestamp o |}];
      auto_increment := S insertId;
      uploads := uploads s |}).

(** [POST /api/recordings] behind [upload.single('video')]. *)
Definition postRecordings (file : option (list Byte.byte)) (o : Outside)
    (s : State) : Response * State :=
  match file with
  | None => (Json 400 "No file uploaded.", s)
  | Some body =>
      let size := N.of_nat (length body) in
      if (fileSize <? size)%N then (MulterError, s)
      else
        let filename := storageFilename "video" o in
        let s := writeFile filename body s in
        if db_ok o then
          let '(insertId, s) := insertRecording filename size o s in
          (Created "File uploaded successfully!" insertId, s)
        else (Json 500 "Failed to save recording.", s)
  end.

Definition newer_first (a b : Row) : Prop := (created_at b <= created_at a)%N.

#[global] Instance newer_first_dec a b : Decision (newer_first a b).
Proof. unfold newer_first. apply _. Defined.

(** [SELECT * FROM recordings ORDER BY created_at DESC] *)
Definition selectAll (s : State) : list Row :=
  merge_sort newer_first (recordings s).

(** [SELECT * FROM recordings WHERE id = ?] *)
Definition selectById (i : nat) (s : State) : list Row :=
  List.filter (fun r => (id r =? i)%nat) (recordings s).

(** [GET /api/recordings] *)
Definition getRecordings (o : Outside) (s : State) : Response :=
  if db_ok o then Rows (selectAll s)
  else Json 500 "Failed to fetch recordings.".

(** [GET /api/recordings/:id] *)
Definition getRecording (i : nat) (o : Outside) (s : State) : Response :=
  if db_ok o then
    match selectById i s with
    | [] => Json 404 "Recording not found."
    | row :: _ =>
        match uploads s !! filename row with
        | None => Json 404 "File not found."
        | Some body => Stream "video/webm" body
        end
    end
  else Json 500 "Failed to stream recording.".

(** Ids in the table were handed out by the counter. *)
Definition ids_below_counter (s : State) : Prop :=
  Forall (fun r => id r < auto_increment s) (recordings s).

(** The table as the database set-up script leaves it: three sample rows
    with no file behind them. *)
Definition seeded : State :=
  {| recordings :=
       [{| id := 1; filename := "sample-recording-1.webm"; size := 1048576%N;
           created_at := 0%N; updated_at := 0%N |};
        {| id := 2; filename := "sample-recording-2.webm"; size := 2097152%N;
           created_at := 0%N; updated_at := 0%N |};
        {| id := 3; filename := "demo-screen-capture.webm"; size := 5242880%N;
           created_at := 0%N; updated_at := 0%N |}];
     auto_increment := 4;
     uploads := ∅ |}.

End Server.

(** ** The list of uploaded recordings *)

Module RecordingsList.

(** The [useState] variables of [RecordingsList]. *)
Record ListState := {
  recordings : list Server.Row;
  loading : bool;
  error : option string;
  selectedRecording : option Server.Row;
  showModal : bool
}.

Definition initialList : ListState :=
  {| recordings := []; loading := true; error := None;
     selectedRecording := None; showModal := false |}.

(** [response.data]: an array of rows, or some other JSON value. *)
Inductive ResponseData := dataArray (rows : list Server.Row) | dataOther.

(** [error.response.data]: null or undefined, or a value whose [message]
    property can be read (an object with or without [message], or a
    string). *)
Inductive ErrorData := dataNull | dataWith (message : option string).

(** The error object of a rejected [axios.get]: its [code], and its
    [response] (status and [data]) when the server answered. *)
Record AxiosError := {
  code : string;
  response : option (nat * ErrorData)
}.

Inductive AxiosGet := fulfilled (data : ResponseData) | failed (err : AxiosError).

Definition setRecordings (v : list Server.Row) (s : ListState) : ListState :=
  {| recordings := v; loading := loading s; error := error s;
     selectedRecording := selectedRecording s; showModal := showModal s |}.

Definition setLoading (v : bool) (s : ListState) : ListState :=
  {| recordings := recordings s; loading := v; error := error s;
     selectedRecording := selectedRecording s; showModal := showModal s |}.

Definition setError (v : option string) (s : ListState) : ListState :=
  {| recordings := recordings s; loading := loading s; error := v;
     selectedRecording := selectedRecording s; showModal := showModal s |}.

Definition setSelectedRecording (v : option Server.Row) (s : ListState) : ListState :=
  {| recordings := recordings s; loading := loading s; error := error s;
     selectedRecording := v; showModal := showModal s |}.

Definition setShowModal (v : bool) (s : ListState) : ListState :=
  {| recordings := recordings s; loading := loading s; error := error s;
     selectedRecording := selectedRecording s; showModal := v |}.

(** [message || 'Unknown error'] *)
Definition orUnknown (message : option string) : string :=
  match message with
  | Some msg => if bool_decide (msg = "") then "Unknown error" else msg
  | None => "Unknown error"
  end.

Definition fetchRecordings (res : AxiosGet) (s : ListState) : ListState :=
  let s := setLoading true s in
  let s := setError None s in
  let s :=
    match res with
    | fulfilled data =>
        setRecordings
          match data with dataArray rows => rows | dataOther => [] end s
    | failed err =>
        if bool_decide (code err = "ECONNREFUSED") then
          setError
            (Some "Cannot connect to server. Please ensure the backend is running on port 5000.")
            s
        else
          match response err with
          | Some (status, dataWith message) =>
              setError
                (Some ("Server error: " +:+ pretty status +:+ " - " +:+
                       orUnknown message)) s
          | Some (_, dataNull) =>
              (* reading [data.message] throws inside the [catch] block:
                 no setter is called there, [finally] still runs *)
              s
          | None =>
              setError
                (Some "Failed to load recordings. Please check your connection.")
                s
          end
    end in
  setLoading false s.

Definition playRecording (recording : Server.Row) (s : ListState) : ListState :=
  setShowModal true (setSelectedRecording (Some recording) s).

Definition closeModal (s : ListState) : ListState :=
  setSelectedRecording None (setShowModal false s).

(** How [axios.get] settles on an answer of the service: a status outside
    2xx rejects with the answer in [error.response]; the body of a JSON
    answer is an object with [message], the error page sent for a multer
    error is a string. *)
Definition axiosGet (r : Server.Response) : AxiosGet :=
  match r with
  | Server.Rows rows => fulfilled (dataArray rows)
  | Server.Json status message =>
      failed {| code := "ERR_BAD_RESPONSE";
                response := Some (status, dataWith (Some message)) |}
  | Server.Created _ _ => fulfilled dataOther
  | Server.Stream _ _ => fulfilled dataOther
  | Server.MulterError =>
      failed {| code := "ERR_BAD_RESPONSE";
                response := Some (500, dataWith None) |}
  end.

End RecordingsList.

(** ** Vocabulary of the properties *)

Import App.

(** The closure [c] refers to no recorder that is in the state
    ['recording']. *)
Definition noActiveEncoder (c : AppState) (m : Machine) : Prop :=
  match mediaRecorder c with
  | Some r =>
      match recorders m !! r with
      | Some R => rec_state R <> recording
      | None => True
      end
  | None => True
  end.

(** The platform lets a recording start: screen capture exists and is
    granted with a video track, and one of the two formats is supported. *)
Definition canRecord (p : Platform) (displayStream : MediaStream) : Prop :=
  hasGetDisplayMedia p = true /\
  getDisplayMedia p = inr displayStream /\
  (isTypeSupported p vp9 || isTypeSupported p webm) = true /\
  getVideoTracks displayStream <> [].

(** The recorder object a successful [startRecording] leaves behind. *)
Definition startedRecorder (c : AppState) (p : Platform)
    (displayStream : MediaStream) : Recorder :=
  {| rec_state := recording; rec_stop_queued := false;
     rec_stream := (combinedStream p displayStream).1;
     rec_mimeType := if isTypeSupported p vp9 then vp9 else webm;
     rec_chunks := []; rec_display := displayStream; rec_closure := c |}.

(** What a recorder object keeps for its whole life: the constructor
    arguments and the values captured by its handlers. *)
Definition sameSession (R R' : Recorder) : Prop :=
  rec_mimeType R' = rec_mimeType R /\
  rec_stream R' = rec_stream R /\
  rec_display R' = rec_display R /\
  rec_closure R' = rec_closure R.

(** Every recorder of [l] is still there in [l'], as the same session. *)
Definition kept (l l' : list Recorder) : Prop :=
  forall r R, l !! r = Some R -> exists R', l' !! r = Some R' /\ sameSession R R'.

(** Sample tracks, streams and platforms. *)
Definition screenVideo : Track := {| tid := 0; kind := video |}.
Definition screenAudio : Track := {| tid := 1; kind := audio |}.
Definition micAudio : Track := {| tid := 2; kind := audio |}.

Definition screenStream : MediaStream :=
  {| sid := 0; tracks := [screenVideo; screenAudio] |}.
Definition micStream : MediaStream := {| sid := 1; tracks := [micAudio] |}.

(** Screen and microphone granted, only plain WebM supported. *)
Definition platformWithMic : Platform :=
  {| hasGetDisplayMedia := true; getDisplayMedia := inr screenStream;
     getUserMedia := inr micStream; newStreamId := 2;
     isTypeSupported := fun t => bool_decide (t = webm) |}.

(** Screen granted, microphone denied, VP9 supported. *)
Definition platformMicDenied : Platform :=
  {| hasGetDisplayMedia := true; getDisplayMedia := inr screenStream;
     getUserMedia := inl "Permission denied"; newStreamId := 2;
     isTypeSupported := fun t => bool_decide (t = vp9) |}.

(** Screen granted, microphone denied, no WebM format supported. *)
Definition platformNoFormat : Platform :=
  {| hasGetDisplayMedia := true; getDisplayMedia := inr screenStream;
     getUserMedia := inl "Permission denied"; newStreamId := 2;
     isTypeSupported := fun _ => false |}.

(** The same platform with another answer to the microphone request. *)
Definition withUserMedia (u : string + MediaStream) (p : Platform) : Platform :=
  {| hasGetDisplayMedia := hasGetDisplayMedia p;
     getDisplayMedia := getDisplayMedia p;
     getUserMedia := u; newStreamId := newStreamId p;
     isTypeSupported := isTypeSupported p |}.

(** The two buttons that begin a session. *)
Definition begins (e : Event) (p : Platform) : Prop :=
  e = ClickStart p \/ e = ClickRecordAnother p.

(** Between two machines, each of the given tracks received exactly one
    stop call. *)
Definition eachStoppedOnce (acquired : list Track) (before after : Machine)
  : Prop :=
  Forall (fun t => stops t (calls after) = stops t (calls before) + 1) acquired.

(** The preview URL and the chunk kept for upload denote one blob of the
    blob store, or there is neither. *)
Definition artifactOk (m : Machine) : Prop :=
  match recordingUrl (st m), recordedChunks (st m) with
  | None, [] => True
  | Some u, [blob] => objectUrls m !! u = Some blob
  | _, _ => False
  end.

(** An interval is installed exactly while [isRecording] holds. *)
Definition timerOk (m : Machine) : Prop :=
  match timerRef m with
  | Some _ => isRecording (st m) = true
  | None => isRecording (st m) = false
  end.

Definition isAlert (c : Call) : bool :=
  match c with Alert _ => true | _ => false end.

(** The data an event hands to the [dataavailable] handler of recorder
    [r] and that the handler keeps. *)
Definition deliveredBy (r : nat) (e : Event) : list Blob :=
  match e with
  | DataAvailable r' (Some d) =>
      if bool_decide (r' = r) && (0 <? blob_size d)%nat then [d] else []
  | _ => []
  end.

Definition delivered (r : nat) (es : list Event) : list Blob :=
  List.concat (List.map (deliveredBy r) es).

(** The bytes an event sequence delivers to recorder [r], empty chunks
    included. *)
Definition bytesBy (r : nat) (e : Event) : list Byte.byte :=
  match e with
  | DataAvailable r' (Some d) => if bool_decide (r' = r) then blob_data d else []
  | _ => []
  end.

(** Reading a timer display back: two digits, a colon, two digits. *)
Definition digit (c : ascii) : option Z :=
  let n := Ascii.nat_of_ascii c in
  if (48 <=? n)%nat && (n <=? 57)%nat then Some (Z.of_nat (n - 48)) else None.

Definition parseTime (s : string) : option Z :=
  match s with
  | String a (String b (String ":" (String c (String d EmptyString)))) =>
      match digit a, digit b, digit c, digit d with
      | Some x, Some y, Some z, Some w =>
          Some ((10 * x + y) * 60 + (10 * z + w))%Z
      | _, _, _, _ => None
      end
  | _ => None
  end.

(** [m'] has the URL, the chunks and the blob store of [m]. *)
Definition keepsArtifact (m m' : Machine) : Prop :=
  recordingUrl (st m') = recordingUrl (st m) /\
  recordedChunks (st m') = recordedChunks (st m) /\
  objectUrls m' = objectUrls m.

Definition noAlert (log : list Call) : Prop :=
  Forall (fun c => isAlert c = false) log.

(** The timer display of [seconds] has five characters and reads back as
    [seconds]. *)
Definition displaysAs (seconds : Z) : bool :=
  bool_decide (String.length (formatTime seconds) = 5) &&
  bool_decide (parseTime (formatTime seconds) = Some seconds).

(** Every recorder of [l] is still there in [l'], related by [P]. *)
Definition keptBy (P : Recorder -> Recorder -> Prop) (l l' : list Recorder)
  : Prop :=
  forall r R, l !! r = Some R -> exists R', l' !! r = Some R' /\ P R R'.

(** [R'] has the chunk buffer and the format of [R]. *)
Definition sameData (R R' : Recorder) : Prop :=
  rec_chunks R' = rec_chunks R /\ rec_mimeType R' = rec_mimeType R.

(** Two machines that differ at most in what their recorders' handlers
    have captured. *)
Definition sameView (m m' : Machine) : Prop :=
  st m = st m' /\ calls m = calls m' /\ objectUrls m = objectUrls m' /\
  timerRef m = timerRef m' /\ videoRef m = videoRef m' /\
  length (recorders m) = length (recorders m').

(** The service after a sequence of [POST /api/recordings] requests. *)
Definition postAll (reqs : list (option (list Byte.byte) * Server.Outside))
    (s : Server.State) : Server.State :=
  fold_left (fun s req => (Server.postRecordings req.1 req.2 s).2) reqs s.

(** The file name multer gives to the upload of a request, if it stores
    one. *)
Definition storedAs (req : option (list Byte.byte) * Server.Outside)
  : option string :=
  match req.1 with
  | Some body =>
      if (Server.fileSize <? N.of_nat (length body))%N then None
      else Some (Server.storageFilename "video" req.2)
  | None => None
  end.

(** The platform side of an encoder error: the recorder is inactivated
    before its [error] event fires, and its [stop] event follows. *)
Definition errorRaised (r : nat) (m : Machine) : Machine :=
  match recorders m !! r with
  | Some R =>
      withRecorders
        (<[r := {| rec_state := inactive; rec_stop_queued := true;
                   rec_stream := rec_stream R; rec_mimeType := rec_mimeType R;
                   rec_chunks := rec_chunks R; rec_display := rec_display R;
                   rec_closure := rec_closure R |}]> (recorders m)) m
  | None => m
  end.

(** The interval's closure holds the stream the component holds. *)
Definition timerHoldsStream (m : Machine) : Prop :=
  timerOk m /\
  forall c x, timerRef m = Some c -> stream (st m) = Some x -> stream c = Some x.

(** Since the log [log0], either every track of [s] has been stopped, or the
    component still holds [s] in [stream]. *)
Definition stoppedOrHeld (s : MediaStream) (log0 : list Call) (m : Machine)
  : Prop :=
  (forall t, In t (tracks s) -> stops t log0 < stops t (calls m)) \/
  (stream (st m) = Some s /\ forall t, stops t log0 <= stops t (calls m)).

(** * Properties of the capture session controller *)

(** ** Projections through the machine operations *)

Lemma st_setSrcObject v m : st (setSrcObject v m) = st m.
Proof. unfold setSrcObject. destruct (videoRef m); reflexivity. Qed.

Lemma calls_setSrcObject v m : calls (setSrcObject v m) = calls m.
Proof. unfold setSrcObject. destruct (videoRef m); reflexivity. Qed.

Lemma recorders_setSrcObject v m : recorders (setSrcObject v m) = recorders m.
Proof. unfold setSrcObject. destruct (videoRef m); reflexivity. Qed.

Lemma objectUrls_setSrcObject v m : objectUrls (setSrcObject v m) = objectUrls m.
Proof. unfold setSrcObject. destruct (videoRef m); reflexivity. Qed.

Lemma timerRef_setSrcObject v m : timerRef (setSrcObject v m) = timerRef m.
Proof. unfold setSrcObject. destruct (videoRef m); reflexivity. Qed.

Create Rewrite HintDb machine.

#[local] Hint Rewrite st_setSrcObject calls_setSrcObject recorders_setSrcObject
  objectUrls_setSrcObject timerRef_setSrcObject : machine.

(** The state left by [stopRecording]: [isRecording] is cleared, and
    [stream] too when the closure holds one. *)
Lemma st_stopRecording c m :
  st (stopRecording c m) =
  match stream c with
  | Some _ => setStream None (setIsRecording false (st m))
  | None => setIsRecording false (st m)
  end.
Proof.
  unfold stopRecording. rewrite st_setSrcObject.
  destruct (stream c); simpl;
    repeat case_match; reflexivity.
Qed.

(** A render in which neither [stream] nor [isRecording] changed runs no
    effect. *)
Lemma commit_same prev m :
  stream prev = stream (st m) ->
  isRecording prev = isRecording (st m) ->
  commit prev m = m.
Proof.
  intros Hs Hr. unfold commit.
  destruct (decide (stream prev = stream (st m))); [|contradiction].
  rewrite bool_decide_eq_true_2 by exact Hr. reflexivity.
Qed.

Lemma st_commit prev m : st (commit prev m) = st m.
Proof.
  unfold commit, streamCleanup, timerEffect.
  repeat case_match; reflexivity.
Qed.

(** ** Stopping with nothing to stop *)

(** C10. [stopRecording] called from a render with no recorder in the state
    ['recording'] and no stream stops no encoder and no track (the log of
    platform calls and the recorders are unchanged) and leaves
    [recordedChunks], [recordingUrl] and [recordingTime] as they were. *)
Theorem stopRecording_idle (c : AppState) (m : Machine) :
  noActiveEncoder c m ->
  stream c = None ->
  let m' := stopRecording c m in
  calls m' = calls m /\
  recorders m' = recorders m /\
  recordedChunks (st m') = recordedChunks (st m) /\
  recordingUrl (st m') = recordingUrl (st m) /\
  recordingTime (st m') = recordingTime (st m).
Proof.
  intros Henc Hstream m'. subst m'.
  rewrite st_stopRecording, Hstream.
  unfold stopRecording, noActiveEncoder in *.
  rewrite Hstream, calls_setSrcObject, recorders_setSrcObject.
  destruct (mediaRecorder c) as [r|]; simpl; [|tauto].
  destruct (recorders m !! r) as [R|]; simpl; [|tauto].
  rewrite bool_decide_eq_false_2 by exact Henc. simpl. tauto.
Qed.

Lemma stopRecording_idle_witness :
  let m' := stopRecording initialState initialMachine in
  calls m' = calls initialMachine /\
  recorders m' = recorders initialMachine /\
  recordedChunks (st m') = recordedChunks (st initialMachine) /\
  recordingUrl (st m') = recordingUrl (st initialMachine) /\
  recordingTime (st m') = recordingTime (st initialMachine).
Proof.
  apply (stopRecording_idle initialState initialMachine); [exact I|reflexivity].
Defined.

(** ** Upload failure *)

Lemma step_ClickUpload (res : AxiosResult) (m : Machine) :
  hasUrl (st m) = true ->
  isRecording (st m) = false ->
  uploadStatus (st m) <> "uploading" ->
  step (ClickUpload res) m = handleUpload (st m) res m.
Proof.
  intros Hurl Hrec Hup. unfold step, handle. rewrite Hurl, Hrec.
  rewrite bool_decide_eq_false_2 by exact Hup. simpl.
  apply commit_same; unfold handleUpload;
    destruct (recordedChunks (st m)); destruct res; reflexivity.
Qed.

(** C9. When the request of [handleUpload] is rejected (network error,
    timeout or a status outside 2xx), [recordedChunks], [recordingUrl] and the
    blob store are what they were before the call; the upload button is
    enabled again, and pressing it posts the same blob once more. *)
Theorem handleUpload_failure_keeps_artifact :
  (forall (c : AppState) (why : UploadFailure) (m : Machine),
      let m' := handleUpload c (rejected why) m in
      recordedChunks (st m') = recordedChunks (st m) /\
      recordingUrl (st m') = recordingUrl (st m) /\
      objectUrls m' = objectUrls m) /\
  (forall (why : UploadFailure) (res : AxiosResult) (m : Machine) blob rest,
      recordedChunks (st m) = blob :: rest ->
      hasUrl (st m) = true ->
      isRecording (st m) = false ->
      uploadStatus (st m) <> "uploading" ->
      let m1 := step (ClickUpload (rejected why)) m in
      recordedChunks (st m1) = blob :: rest /\
      recordingUrl (st m1) = recordingUrl (st m) /\
      uploadStatus (st m1) = "error" /\
      calls (step (ClickUpload res) m1) =
        calls m ++ [AxiosPost blob; AxiosPost blob]).
Proof.
  split.
  - intros c why m m'. subst m'. unfold handleUpload.
    destruct (recordedChunks c); simpl; auto.
  - intros why res m blob rest Hchunks Hurl Hrec Hup m1.
    assert (Hm1 : m1 = handleUpload (st m) (rejected why) m)
      by (apply step_ClickUpload; assumption).
    assert (Hst : st m1 = setUploadStatus "error" (setUploadStatus "uploading" (st m))).
    { rewrite Hm1. unfold handleUpload. rewrite Hchunks. reflexivity. }
    assert (Hcalls : calls m1 = calls m ++ [AxiosPost blob]).
    { rewrite Hm1. unfold handleUpload. rewrite Hchunks. reflexivity. }
    repeat split.
    + rewrite Hst. exact Hchunks.
    + rewrite Hst. reflexivity.
    + rewrite Hst. reflexivity.
    + rewrite step_ClickUpload.
      * unfold handleUpload. rewrite Hst. simpl. rewrite Hchunks.
        destruct res; simpl; rewrite Hcalls, <- app_assoc; reflexivity.
      * rewrite Hst. exact Hurl.
      * rewrite Hst. exact Hrec.
      * rewrite Hst. discriminate.
Qed.

Lemma handleUpload_failure_witness :
  let m := setState (setRecordingUrl (Some 0))
             (setState (setRecordedChunks [newBlob [] webm]) initialMachine) in
  let m1 := step (ClickUpload (rejected Timeout)) m in
  recordedChunks (st m1) = [newBlob [] webm] /\
  recordingUrl (st m1) = recordingUrl (st m) /\
  uploadStatus (st m1) = "error" /\
  calls (step (ClickUpload resolved) m1) =
    calls m ++ [AxiosPost (newBlob [] webm); AxiosPost (newBlob [] webm)].
Proof.
  apply (proj2 handleUpload_failure_keeps_artifact Timeout resolved
           (setState (setRecordingUrl (Some 0))
              (setState (setRecordedChunks [newBlob [] webm]) initialMachine))
           (newBlob [] webm) []);
    [reflexivity | reflexivity | reflexivity | discriminate].
Defined.

(** ** Starting a session *)

Lemma insert_snoc {A} (l : list A) (x y : A) :
  <[length l := y]> (l ++ [x]) = l ++ [y].
Proof.
  replace (length l) with (length l + 0) by lia.
  rewrite insert_app_r. reflexivity.
Qed.

(** A start the platform allows: state, recorders and platform calls it
    leaves. *)
Lemma acquireAndRecord_success c p m d :
  canRecord p d ->
  let m' := acquireAndRecord c p m in
  let r := length (recorders m) in
  let s := (combinedStream p d).1 in
  st m' = setIsRecording true
            (setMediaRecorder (Some r) (setStream (Some s) (st m))) /\
  recorders m' = recorders m ++ [startedRecorder c p d] /\
  calls m' = calls m ++ GetDisplayMedia :: (combinedStream p d).2 ++
               [NewMediaRecorder r s (if isTypeSupported p vp9 then vp9 else webm);
                RecorderStart r 1000] /\
  objectUrls m' = objectUrls m /\
  timerRef m' = timerRef m.
Proof.
  intros (Hgdm & Hd & Hsup & Hv) m' r s. subst m' r s.
  unfold acquireAndRecord, startedRecorder. rewrite Hgdm, Hd. simpl.
  destruct (combinedStream p d) as [s cs]. simpl.
  assert (Hthrow : negb (isTypeSupported p vp9) && negb (isTypeSupported p webm) = false)
    by (destruct (isTypeSupported p vp9), (isTypeSupported p webm);
        simpl in *; congruence).
  rewrite Hthrow. unfold newMediaRecorder. simpl.
  destruct (getVideoTracks d) as [|v vs]; [contradiction|].
  unfold recorderStart. simpl.
  rewrite list_lookup_middle by reflexivity. simpl.
  autorewrite with machine. simpl.
  rewrite insert_snoc, <- !app_assoc. simpl. tauto.
Qed.

(** Below its reset block [startRecording] touches none of
    [recordingTime], [recordedChunks], [recordingUrl], [uploadStatus]. *)
Lemma acquireAndRecord_keeps c p m :
  let m' := acquireAndRecord c p m in
  recordingTime (st m') = recordingTime (st m) /\
  recordedChunks (st m') = recordedChunks (st m) /\
  recordingUrl (st m') = recordingUrl (st m) /\
  uploadStatus (st m') = uploadStatus (st m).
Proof.
  unfold acquireAndRecord, catchStart, newMediaRecorder, recorderStart.
  simpl.
  repeat (case_match; simpl; autorewrite with machine; simpl); tauto.
Qed.

(** C5. [startRecording] is its reset block followed by the rest: the reset
    block makes no platform call and leaves elapsed time 0, no chunks, no
    URL, no error and no upload status; whatever those five fields held
    before has no influence on the outcome, and elapsed time, chunks, URL
    and upload status still have their initial values when the call
    returns. *)
Theorem startRecording_full_reset (c : AppState) (p : Platform) (m : Machine) :
  let m0 := resetRecording m in
  startRecording c p m = acquireAndRecord c p m0 /\
  (calls m0 = calls m /\ recorders m0 = recorders m) /\
  (recordingTime (st m0) = 0%Z /\ recordedChunks (st m0) = [] /\
   recordingUrl (st m0) = None /\ error (st m0) = "" /\
   uploadStatus (st m0) = "") /\
  (let m' := startRecording c p m in
   recordingTime (st m') = 0%Z /\ recordedChunks (st m') = [] /\
   recordingUrl (st m') = None /\ uploadStatus (st m') = "") /\
  (forall chunks url time status err,
      startRecording c p
        (setState (setError err)
           (setState (setUploadStatus status)
              (setState (setRecordingTime time)
                 (setState (setRecordingUrl url)
                    (setState (setRecordedChunks chunks) m))))) =
      startRecording c p m).
Proof.
  intros m0. subst m0.
  split; [reflexivity|].
  split; [split; reflexivity|].
  split; [repeat split; reflexivity|].
  split.
  - unfold startRecording.
    destruct (acquireAndRecord_keeps c p (resetRecording m)) as (-> & -> & -> & ->).
    repeat split; reflexivity.
  - intros. reflexivity.
Qed.

(** ** Recorder objects keep their session *)

Lemma sameSession_refl R : sameSession R R.
Proof. repeat split. Qed.

Lemma sameSession_trans R1 R2 R3 :
  sameSession R1 R2 -> sameSession R2 R3 -> sameSession R1 R3.
Proof.
  intros (H1 & H2 & H3 & H4) (H5 & H6 & H7 & H8).
  repeat split; congruence.
Qed.

Lemma kept_refl l : kept l l.
Proof. intros r R H. exists R. split; [exact H|apply sameSession_refl]. Qed.

Lemma kept_trans l1 l2 l3 : kept l1 l2 -> kept l2 l3 -> kept l1 l3.
Proof.
  intros H12 H23 r R H.
  destruct (H12 r R H) as (R2 & H2 & HS2).
  destruct (H23 r R2 H2) as (R3 & H3 & HS3).
  exists R3. split; [exact H3|eapply sameSession_trans; eassumption].
Qed.

Lemma kept_app l l2 : kept l (l ++ l2).
Proof.
  intros r R H. exists R. split; [|apply sameSession_refl].
  apply lookup_app_l_Some. exact H.
Qed.

Lemma kept_insert l r R R' :
  l !! r = Some R -> sameSession R R' -> kept l (<[r := R']> l).
Proof.
  intros Hr HS i Ri Hi.
  destruct (decide (r = i)) as [->|Hne].
  - exists R'. split.
    + apply list_lookup_insert_eq. eapply lookup_lt_Some. exact Hi.
    + congruence.
  - exists Ri. split; [|apply sameSession_refl].
    rewrite list_lookup_insert_ne by exact Hne. exact Hi.
Qed.

Lemma recorders_catchStart c msg m : recorders (catchStart c msg m) = recorders m.
Proof. unfold catchStart. destruct (stream c); reflexivity. Qed.

Lemma kept_stopRecording c m : kept (recorders m) (recorders (stopRecording c m)).
Proof.
  unfold stopRecording. rewrite recorders_setSrcObject.
  assert (Hk : forall m1, kept (recorders m) (recorders m1) ->
     kept (recorders m)
       (recorders match stream c with
                  | Some s => setState (setStream None)
                                (stopTracks s (setState (setIsRecording false) m1))
                  | None => setState (setIsRecording false) m1
                  end))
    by (intros m1 H; destruct (stream c); exact H).
  apply Hk.
  destruct (mediaRecorder c) as [r|]; [|apply kept_refl].
  destruct (recorders m !! r) as [R|] eqn:HR; [|apply kept_refl].
  case_bool_decide; [|apply kept_refl].
  simpl. eapply kept_insert; [exact HR|repeat split].
Qed.

Lemma kept_acquireAndRecord c p m :
  kept (recorders m) (recorders (acquireAndRecord c p m)).
Proof.
  unfold acquireAndRecord.
  destruct (negb (hasGetDisplayMedia p));
    [rewrite recorders_catchStart; apply kept_refl|].
  destruct (getDisplayMedia p) as [msg|d];
    [rewrite recorders_catchStart; apply kept_refl|].
  destruct (combinedStream p d) as [s cs].
  destruct (negb (isTypeSupported p vp9) && negb (isTypeSupported p webm));
    [rewrite recorders_catchStart; apply kept_refl|].
  unfold newMediaRecorder.
  destruct (getVideoTracks d);
    [rewrite recorders_catchStart; apply kept_app|].
  rewrite recorders_setSrcObject. simpl.
  eapply kept_trans; [apply kept_app|].
  unfold recorderStart. simpl.
  rewrite list_lookup_middle by reflexivity. simpl.
  eapply kept_insert; [apply list_lookup_middle; reflexivity|repeat split].
Qed.

Lemma recorders_commit prev m : recorders (commit prev m) = recorders m.
Proof.
  unfold commit, streamCleanup, timerEffect. repeat case_match; reflexivity.
Qed.

Lemma recorders_handleUpload c res m : recorders (handleUpload c res m) = recorders m.
Proof. unfold handleUpload. repeat case_match; reflexivity. Qed.

Lemma recorders_clearRecording m : recorders (clearRecording m) = recorders m.
Proof. unfold clearRecording. rewrite recorders_setSrcObject. reflexivity. Qed.

Lemma kept_handle e m : kept (recorders m) (recorders (handle e m)).
Proof.
  destruct e; simpl.
  - case_match; [|apply kept_refl].
    apply (kept_acquireAndRecord (st m) p (resetRecording m)).
  - case_match; [|apply kept_refl].
    unfold startRecording.
    eapply kept_trans; [|apply kept_acquireAndRecord].
    simpl. rewrite recorders_clearRecording. apply kept_refl.
  - case_match; [|apply kept_refl]. apply kept_stopRecording.
  - case_match; [|apply kept_refl]. rewrite recorders_handleUpload. apply kept_refl.
  - case_match; [|apply kept_refl]. rewrite recorders_clearRecording. apply kept_refl.
  - apply kept_refl.
  - destruct (timerRef m) as [c|]; [|apply kept_refl].
    unfold intervalTick. case_match; [|apply kept_refl].
    simpl. apply kept_stopRecording.
  - unfold ondataavailable.
    destruct (recorders m !! r) as [R|] eqn:HR; [|apply kept_refl].
    destruct data as [d|]; [|apply kept_refl].
    case_match; [|apply kept_refl].
    simpl. eapply kept_insert; [exact HR|repeat split].
  - unfold onstop, stopDelivered.
    destruct (recorders m !! r) as [R|] eqn:HR; [|rewrite HR; apply kept_refl].
    simpl. case_match; simpl; (eapply kept_insert; [exact HR|repeat split]).
  - unfold onerror.
    destruct (recorders m !! r) as [R|] eqn:HR; [|apply kept_refl].
    apply (kept_stopRecording (rec_closure R)
             (setState (setError ("Recording error: " +:+ message)) m)).
  - unfold onended.
    destruct (recorders m !! r) as [R|] eqn:HR; [|apply kept_refl].
    case_match; [|apply kept_refl]. apply kept_stopRecording.
Qed.

Lemma kept_step e m : kept (recorders m) (recorders (step e m)).
Proof. unfold step. rewrite recorders_commit. apply kept_handle. Qed.

Lemma kept_run es m : kept (recorders m) (recorders (run es m)).
Proof.
  revert m. induction es as [|e es IH]; intros m; simpl.
  - apply kept_refl.
  - eapply kept_trans; [apply kept_step|apply IH].
Qed.

(** ** The encoder: its stream and its format *)

Lemma calls_catchStart c msg m :
  calls (catchStart c msg m) =
  calls m ++ match stream c with
             | Some s => List.map TrackStop (getTracks s)
             | None => []
             end.
Proof.
  unfold catchStart. destruct (stream c); simpl; [reflexivity|].
  rewrite app_nil_r. reflexivity.
Qed.

(** Once the screen is captured and a format is supported, the encoder is
    created, on the combined stream and with the format chosen, whether or
    not the start then completes. *)
Lemma acquireAndRecord_creates c p m d :
  hasGetDisplayMedia p = true ->
  getDisplayMedia p = inr d ->
  (isTypeSupported p vp9 || isTypeSupported p webm) = true ->
  let m' := acquireAndRecord c p m in
  let r := length (recorders m) in
  exists R,
    recorders m' !! r = Some R /\
    sameSession (startedRecorder c p d) R /\
    rec_chunks R = [] /\
    In (NewMediaRecorder r (combinedStream p d).1
          (if isTypeSupported p vp9 then vp9 else webm)) (calls m').
Proof.
  intros Hgdm Hd Hsup m' r.
  destruct (getVideoTracks d) as [|v vs] eqn:Hv.
  - subst m' r. unfold acquireAndRecord, startedRecorder.
    rewrite Hgdm, Hd. simpl.
    destruct (combinedStream p d) as [s cs]. simpl.
    assert (Hthrow : negb (isTypeSupported p vp9) && negb (isTypeSupported p webm) = false)
      by (destruct (isTypeSupported p vp9), (isTypeSupported p webm);
          simpl in *; congruence).
    rewrite Hthrow, Hv. unfold newMediaRecorder.
    rewrite recorders_catchStart, calls_catchStart. simpl.
    eexists. split; [apply list_lookup_middle; reflexivity|].
    split; [repeat split|]. split; [reflexivity|].
    apply in_or_app. left. apply in_or_app. right. left. reflexivity.
  - assert (Hcan : canRecord p d)
      by (repeat split; try assumption; rewrite Hv; discriminate).
    destruct (acquireAndRecord_success c p m d Hcan) as (_ & Hrs & Hcs & _).
    subst m' r. rewrite Hrs, Hcs.
    exists (startedRecorder c p d).
    split; [apply list_lookup_middle; reflexivity|].
    split; [apply sameSession_refl|]. split; [reflexivity|].
    apply in_or_app. right. right. apply in_or_app. right. left. reflexivity.
Qed.

(** C8. The stream given to [new MediaRecorder]: with a microphone stream,
    the screen's video tracks, then the screen's audio tracks, then the
    microphone's audio tracks; when the microphone request fails, the
    screen-capture stream itself. *)
Theorem encoder_stream_composition
    (c : AppState) (p : Platform) (m : Machine) (displayStream : MediaStream) :
  hasGetDisplayMedia p = true ->
  getDisplayMedia p = inr displayStream ->
  (isTypeSupported p vp9 || isTypeSupported p webm) = true ->
  let m' := startRecording c p m in
  let r := length (recorders m) in
  exists R,
    recorders m' !! r = Some R /\
    In (NewMediaRecorder r (rec_stream R) (rec_mimeType R)) (calls m') /\
    (forall micStream, getUserMedia p = inr micStream ->
       tracks (rec_stream R) =
         getVideoTracks displayStream ++ getAudioTracks displayStream ++
         getAudioTracks micStream) /\
    (forall message, getUserMedia p = inl message ->
       rec_stream R = displayStream).
Proof.
  intros Hgdm Hd Hsup m' r.
  destruct (acquireAndRecord_creates c p (resetRecording m) displayStream
              Hgdm Hd Hsup) as (R & HR & (Hmime & Hstream & _) & _ & Hin).
  exists R. split; [exact HR|].
  rewrite Hmime, Hstream. split; [exact Hin|].
  unfold startedRecorder, combinedStream. simpl.
  split; intros x Hx; rewrite Hx; reflexivity.
Qed.

Lemma encoder_stream_composition_witness :
  let m' := startRecording initialState platformWithMic initialMachine in
  exists R,
    recorders m' !! 0 = Some R /\
    In (NewMediaRecorder 0 (rec_stream R) (rec_mimeType R)) (calls m') /\
    (forall mic, getUserMedia platformWithMic = inr mic ->
       tracks (rec_stream R) =
         getVideoTracks screenStream ++ getAudioTracks screenStream ++
         getAudioTracks mic) /\
    (forall message, getUserMedia platformWithMic = inl message ->
       rec_stream R = screenStream).
Proof.
  apply (encoder_stream_composition initialState platformWithMic
           initialMachine screenStream); reflexivity.
Defined.

Lemma recordedChunks_RecorderStopped r R m :
  recorders m !! r = Some R ->
  recordedChunks (st (step (RecorderStopped r) m)) =
    [newBlob (rec_chunks R) (rec_mimeType R)].
Proof.
  intros HR. unfold step. rewrite st_commit. simpl.
  unfold onstop, stopDelivered. rewrite HR. simpl.
  rewrite list_lookup_insert_eq by (eapply lookup_lt_Some; exact HR).
  reflexivity.
Qed.

(** C7. Format selection in [startRecording], once the screen is captured:
    VP9 WebM if supported; else plain WebM if supported; else the [catch]
    block runs with no encoder created (the only platform calls are the two
    capture requests and the track stops of the [catch] block).  After any
    events, the blob built by the recorder's [stop] handler carries the format
    chosen at the start. *)
Theorem format_selection :
  (forall (c : AppState) (p : Platform) (m : Machine) (d : MediaStream),
      hasGetDisplayMedia p = true ->
      getDisplayMedia p = inr d ->
      let m' := startRecording c p m in
      let r := length (recorders m) in
      (isTypeSupported p vp9 = true ->
         exists R, recorders m' !! r = Some R /\ rec_mimeType R = vp9 /\
                   In (NewMediaRecorder r (rec_stream R) vp9) (calls m')) /\
      (isTypeSupported p vp9 = false -> isTypeSupported p webm = true ->
         exists R, recorders m' !! r = Some R /\ rec_mimeType R = webm /\
                   In (NewMediaRecorder r (rec_stream R) webm) (calls m')) /\
      (isTypeSupported p vp9 = false -> isTypeSupported p webm = false ->
         recorders m' = recorders m /\
         calls m' = calls m ++ GetDisplayMedia :: (combinedStream p d).2 ++
                      match stream c with
                      | Some s => List.map TrackStop (getTracks s)
                      | None => []
                      end /\
         isRecording (st m') = isRecording (st m) /\
         error (st m') =
           "Failed to start recording: WebM recording is not supported in this browser.")) /\
  (forall (c : AppState) (p : Platform) (m : Machine) (d : MediaStream)
          (es : list Event),
      hasGetDisplayMedia p = true ->
      getDisplayMedia p = inr d ->
      (isTypeSupported p vp9 || isTypeSupported p webm) = true ->
      let r := length (recorders m) in
      let mf := step (RecorderStopped r) (run es (startRecording c p m)) in
      exists blob,
        recordedChunks (st mf) = [blob] /\
        blob_type blob = if isTypeSupported p vp9 then vp9 else webm).
Proof.
  split.
  - intros c p m d Hgdm Hd m' r. split; [|split].
    + intros Hvp9.
      destruct (acquireAndRecord_creates c p (resetRecording m) d Hgdm Hd)
        as (R & HR & (Hmime & Hstream & _) & _ & Hin);
        [rewrite Hvp9; reflexivity|].
      simpl in Hmime, Hstream. rewrite Hvp9 in *.
      exists R. rewrite Hstream. auto.
    + intros Hvp9 Hwebm.
      destruct (acquireAndRecord_creates c p (resetRecording m) d Hgdm Hd)
        as (R & HR & (Hmime & Hstream & _) & _ & Hin);
        [rewrite Hvp9, Hwebm; reflexivity|].
      simpl in Hmime, Hstream. rewrite Hvp9 in *.
      exists R. rewrite Hstream. auto.
    + intros Hvp9 Hwebm. subst m' r.
      unfold startRecording, acquireAndRecord. rewrite Hgdm, Hd. simpl.
      destruct (combinedStream p d) as [s cs]. rewrite Hvp9, Hwebm. simpl.
      rewrite recorders_catchStart, calls_catchStart. simpl.
      split; [reflexivity|]. split; [rewrite <- !app_assoc; reflexivity|].
      unfold catchStart. destruct (stream c); simpl; auto.
  - intros c p m d es Hgdm Hd Hsup r mf.
    destruct (acquireAndRecord_creates c p (resetRecording m) d Hgdm Hd Hsup)
      as (R & HR & (Hmime & _) & _ & _).
    destruct (kept_run es _ _ _ HR) as (R' & HR' & (Hmime' & _)).
    exists (newBlob (rec_chunks R') (rec_mimeType R')). split.
    + subst mf. apply recordedChunks_RecorderStopped. exact HR'.
    + simpl. rewrite Hmime', Hmime. reflexivity.
Qed.

Lemma format_selection_witness :
  (exists R,
      recorders (startRecording initialState platformMicDenied initialMachine) !! 0
        = Some R /\ rec_mimeType R = vp9) /\
  (exists R,
      recorders (startRecording initialState platformWithMic initialMachine) !! 0
        = Some R /\ rec_mimeType R = webm) /\
  recorders (startRecording initialState platformNoFormat initialMachine) = [] /\
  exists blob,
    recordedChunks
      (st (step (RecorderStopped 0)
             (run [Tick; ClickStop]
                (startRecording initialState platformWithMic initialMachine))))
      = [blob] /\
    blob_type blob = webm.
Proof.
  pose proof (proj1 format_selection initialState platformMicDenied
                initialMachine screenStream eq_refl eq_refl) as (H1 & _ & _).
  pose proof (proj1 format_selection initialState platformWithMic
                initialMachine screenStream eq_refl eq_refl) as (_ & H2 & _).
  pose proof (proj1 format_selection initialState platformNoFormat
                initialMachine screenStream eq_refl eq_refl) as (_ & _ & H3).
  pose proof (proj2 format_selection initialState platformWithMic
                initialMachine screenStream [Tick; ClickStop]
                eq_refl eq_refl eq_refl) as H4.
  destruct (H1 eq_refl) as (R1 & HR1 & HM1 & _).
  destruct (H2 eq_refl eq_refl) as (R2 & HR2 & HM2 & _).
  destruct (H3 eq_refl eq_refl) as (H3' & _).
  split; [exists R1; split; assumption|].
  split; [exists R2; split; assumption|].
  split; [exact H3'|exact H4].
Defined.

(** ** Microphone failure *)

(** C3. When the screen is captured and the microphone request fails,
    whatever the reason, a start that the platform otherwise allows ends in
    the recording state with no error, the encoder running on the
    screen-capture stream alone.  Whether a start ends recording, and the
    error it leaves, do not depend on the answer to the microphone request. *)
Theorem microphone_failure_tolerated :
  (forall (c : AppState) (p : Platform) (m : Machine) (d : MediaStream)
          (message : string),
      canRecord p d ->
      getUserMedia p = inl message ->
      let m' := startRecording c p m in
      let r := length (recorders m) in
      isRecording (st m') = true /\
      error (st m') = "" /\
      mediaRecorder (st m') = Some r /\
      stream (st m') = Some d /\
      exists R, recorders m' !! r = Some R /\
                rec_state R = recording /\ rec_stream R = d) /\
  (forall (c : AppState) (p : Platform) (m : Machine)
          (u1 u2 : string + MediaStream),
      let m1 := startRecording c (withUserMedia u1 p) m in
      let m2 := startRecording c (withUserMedia u2 p) m in
      isRecording (st m1) = isRecording (st m2) /\
      error (st m1) = error (st m2)).
Proof.
  split.
  - intros c p m d message Hcan Hmic m' r.
    destruct (acquireAndRecord_success c p (resetRecording m) d Hcan)
      as (Hst & Hrs & _).
    subst m' r. unfold startRecording. rewrite Hst, Hrs. simpl.
    unfold combinedStream. rewrite Hmic. simpl.
    repeat split.
    exists (startedRecorder c p d).
    split; [apply list_lookup_middle; reflexivity|].
    split; [reflexivity|].
    unfold startedRecorder, combinedStream. rewrite Hmic. reflexivity.
  - intros c p m u1 u2 m1 m2. subst m1 m2.
    unfold startRecording, acquireAndRecord, withUserMedia, combinedStream,
      catchStart, newMediaRecorder, recorderStart.
    simpl.
    destruct (hasGetDisplayMedia p); simpl;
      [|destruct (stream c); simpl; auto].
    destruct (getDisplayMedia p) as [msg|d]; simpl;
      [destruct (stream c); simpl; auto|].
    destruct u1, u2; simpl;
      (destruct (negb (isTypeSupported p vp9) && negb (isTypeSupported p webm));
       simpl; [destruct (stream c); simpl; auto|]);
      (destruct (getVideoTracks d); simpl; [destruct (stream c); simpl; auto|]);
      rewrite !list_lookup_middle by reflexivity; simpl;
      autorewrite with machine; simpl; auto.
Qed.

Lemma microphone_failure_witness :
  let m' := startRecording initialState platformMicDenied initialMachine in
  isRecording (st m') = true /\
  error (st m') = "" /\
  mediaRecorder (st m') = Some 0 /\
  stream (st m') = Some screenStream /\
  exists R, recorders m' !! 0 = Some R /\
            rec_state R = recording /\ rec_stream R = screenStream.
Proof.
  apply (proj1 microphone_failure_tolerated initialState platformMicDenied
           initialMachine screenStream "Permission denied").
  - repeat split; discriminate.
  - reflexivity.
Defined.

(** ** Renders and the beginning of a session *)

Lemma timerRef_commit prev m :
  timerRef (commit prev m) =
  if bool_decide (isRecording prev = isRecording (st m)) then timerRef m
  else if isRecording (st m) then Some (st m) else None.
Proof.
  unfold commit.
  set (m0 := if decide (stream prev = stream (st m)) then m
             else streamCleanup prev m).
  assert (H0 : st m0 = st m /\ timerRef m0 = timerRef m)
    by (subst m0; unfold streamCleanup; repeat case_match; auto).
  destruct H0 as [Hst Ht]. unfold timerEffect. rewrite Hst.
  case_bool_decide; [exact Ht|].
  destruct (isRecording (st m)); simpl; rewrite ?Hst; reflexivity.
Qed.

Lemma calls_commit prev m :
  calls (commit prev m) =
  calls m ++
    (if decide (stream prev = stream (st m)) then []
     else match stream prev with
          | Some s => List.map TrackStop (getTracks s)
          | None => []
          end).
Proof.
  unfold commit, streamCleanup, timerEffect.
  repeat case_match; simpl; rewrite ?app_nil_r; reflexivity.
Qed.

Lemma isRecording_catchStart c msg m :
  isRecording (st (catchStart c msg m)) = isRecording (st m).
Proof. unfold catchStart. destruct (stream c); reflexivity. Qed.

(** A start that turns [isRecording] on was allowed by the platform. *)
Lemma acquireAndRecord_started c p m :
  isRecording (st m) = false ->
  isRecording (st (acquireAndRecord c p m)) = true ->
  exists d, canRecord p d.
Proof.
  intros Hoff. unfold acquireAndRecord, canRecord.
  destruct (hasGetDisplayMedia p); simpl;
    [|rewrite isRecording_catchStart; simpl; congruence].
  destruct (getDisplayMedia p) as [msg|d];
    [rewrite isRecording_catchStart; simpl; congruence|].
  destruct (combinedStream p d) as [s cs].
  destruct (isTypeSupported p vp9), (isTypeSupported p webm); simpl;
    try (rewrite isRecording_catchStart; simpl; congruence);
    (destruct (getVideoTracks d) eqn:Hv;
     [rewrite isRecording_catchStart; simpl; congruence|]);
    intros _; exists d; rewrite Hv; repeat split; discriminate.
Qed.

(** The machine right after a session has begun: the new recorder's
    handlers hold the state of the render that showed the button, and the
    interval holds the state of the render that follows. *)
Lemma begin_session e p m :
  begins e p ->
  isRecording (st m) = false ->
  isRecording (st (step e m)) = true ->
  exists d,
    canRecord p d /\
    let m1 := step e m in
    let r := length (recorders m) in
    let s := (combinedStream p d).1 in
    st m1 = setIsRecording true
              (setMediaRecorder (Some r)
                 (setStream (Some s) (st (resetRecording m)))) /\
    recorders m1 = recorders m ++ [startedRecorder (st m) p d] /\
    timerRef m1 = Some (st m1).
Proof.
  intros Hb Hoff Hon.
  assert (Hcase : exists m0,
             handle e m = acquireAndRecord (st m) p (resetRecording m0) /\
             st (resetRecording m0) = st (resetRecording m) /\
             recorders m0 = recorders m).
  { destruct Hb as [-> | ->]; unfold step in Hon; rewrite st_commit in Hon;
      simpl in *; rewrite Hoff in *; simpl in *.
    - destruct (hasUrl (st m)); simpl in *; [congruence|].
      exists m. auto.
    - destruct (hasUrl (st m)); simpl in *; [|congruence].
      exists (clearRecording m). split; [reflexivity|].
      rewrite recorders_clearRecording. split; [|reflexivity].
      unfold clearRecording. simpl. rewrite st_setSrcObject. reflexivity. }
  destruct Hcase as (m0 & Hh & Hst0 & Hrs0).
  unfold step in *. rewrite st_commit, Hh in Hon.
  destruct (acquireAndRecord_started (st m) p (resetRecording m0)) as (d & Hcan);
    [rewrite Hst0; exact Hoff|exact Hon|].
  exists d. split; [exact Hcan|].
  destruct (acquireAndRecord_success (st m) p (resetRecording m0) d Hcan)
    as (Hst & Hrs & _).
  cbv zeta. rewrite st_commit, recorders_commit, timerRef_commit, Hh.
  rewrite Hst, Hrs, Hst0. simpl. rewrite Hrs0, Hoff. simpl.
  repeat split.
Qed.

(** ** The screen share ends *)

(** C4, as the code behaves.  The [ended] handler of the screen's video
    track tests the [isRecording] of the render whose button began the
    session, and that render was not recording: at any later moment of the
    session the handler changes nothing.  Right after the start the session is
    still recording, its encoder still in the state ['recording'], and no
    platform call has been made. *)
Theorem revoked_screen_share_is_ignored
    (e : Event) (p : Platform) (m : Machine) (es : list Event) :
  begins e p ->
  isRecording (st m) = false ->
  isRecording (st (step e m)) = true ->
  let r := length (recorders m) in
  let m1 := step e m in
  step (TrackEnded r) (run es m1) = run es m1 /\
  isRecording (st (step (TrackEnded r) m1)) = true /\
  calls (step (TrackEnded r) m1) = calls m1 /\
  exists R, recorders (step (TrackEnded r) m1) !! r = Some R /\
            rec_state R = recording.
Proof.
  intros Hb Hoff Hon r m1.
  destruct (begin_session e p m Hb Hoff Hon) as (d & Hcan & _ & Hrs & _).
  fold m1 in Hrs.
  assert (HR : recorders m1 !! r = Some (startedRecorder (st m) p d))
    by (rewrite Hrs; apply list_lookup_middle; reflexivity).
  assert (Hnoop : forall m2, kept (recorders m1) (recorders m2) ->
                             step (TrackEnded r) m2 = m2).
  { intros m2 Hk. destruct (Hk r _ HR) as (R' & HR' & (_ & _ & _ & Hclo)).
    unfold step. simpl. unfold onended. rewrite HR', Hclo. simpl.
    rewrite Hoff. apply commit_same; reflexivity. }
  split; [apply Hnoop, kept_run|].
  rewrite (Hnoop m1 (kept_refl _)).
  split; [exact Hon|]. split; [reflexivity|].
  exists (startedRecorder (st m) p d). split; [exact HR|reflexivity].
Qed.

Lemma revoked_screen_share_witness :
  let m1 := step (ClickStart platformWithMic) initialMachine in
  step (TrackEnded 0) (run [Tick; Tick] m1) = run [Tick; Tick] m1 /\
  isRecording (st (step (TrackEnded 0) m1)) = true /\
  calls (step (TrackEnded 0) m1) = calls m1 /\
  exists R, recorders (step (TrackEnded 0) m1) !! 0 = Some R /\
            rec_state R = recording.
Proof.
  apply (revoked_screen_share_is_ignored (ClickStart platformWithMic)
           platformWithMic initialMachine [Tick; Tick]).
  - left. reflexivity.
  - reflexivity.
  - reflexivity.
Defined.

(** ** The timer *)

Lemma recordingTime_stopRecording c m :
  recordingTime (st (stopRecording c m)) = recordingTime (st m).
Proof. rewrite st_stopRecording. destruct (stream c); reflexivity. Qed.

Lemma isRecording_stopRecording c m :
  isRecording (st (stopRecording c m)) = false.
Proof. rewrite st_stopRecording. destruct (stream c); reflexivity. Qed.

Lemma intervalTick_le c m :
  (recordingTime (st (intervalTick c m)) <= MAX_RECORDING_TIME)%Z.
Proof.
  unfold intervalTick, MAX_RECORDING_TIME.
  destruct (Z.geb_spec (recordingTime (st m) + 1) 180); simpl; lia.
Qed.

Lemma intervalTick_limit c m :
  (recordingTime (st m) + 1 >= MAX_RECORDING_TIME)%Z ->
  intervalTick c m =
    setState (setRecordingTime MAX_RECORDING_TIME) (stopRecording c m).
Proof.
  intros H. unfold intervalTick.
  destruct (Z.geb_spec (recordingTime (st m) + 1) MAX_RECORDING_TIME);
    [reflexivity|lia].
Qed.

Lemma recordingTime_handle e m :
  (recordingTime (st m) <= MAX_RECORDING_TIME)%Z ->
  (recordingTime (st (handle e m)) <= MAX_RECORDING_TIME)%Z.
Proof.
  intros Hle.
  assert (H0 : (0 <= MAX_RECORDING_TIME)%Z) by (unfold MAX_RECORDING_TIME; lia).
  destruct e; simpl.
  - case_match; [|exact Hle]. unfold startRecording.
    destruct (acquireAndRecord_keeps (st m) p (resetRecording m)) as (-> & _).
    exact H0.
  - case_match; [|exact Hle]. unfold startRecording.
    destruct (acquireAndRecord_keeps (st m) p (resetRecording (clearRecording m)))
      as (-> & _).
    exact H0.
  - case_match; [|exact Hle]. rewrite recordingTime_stopRecording. exact Hle.
  - case_match; [|exact Hle]. unfold handleUpload.
    repeat case_match; exact Hle.
  - case_match; [|exact Hle]. unfold clearRecording.
    rewrite st_setSrcObject. exact H0.
  - exact Hle.
  - destruct (timerRef m); [apply intervalTick_le|exact Hle].
  - unfold ondataavailable. repeat case_match; exact Hle.
  - unfold onstop, stopDelivered.
    destruct (recorders m !! r) as [R|] eqn:HR; simpl; [|rewrite HR; exact Hle].
    case_match; exact Hle.
  - unfold onerror. case_match; [|exact Hle].
    rewrite recordingTime_stopRecording. exact Hle.
  - unfold onended. repeat case_match; try exact Hle.
    rewrite recordingTime_stopRecording. exact Hle.
Qed.

Lemma recordingTime_run es m :
  (recordingTime (st m) <= MAX_RECORDING_TIME)%Z ->
  (recordingTime (st (run es m)) <= MAX_RECORDING_TIME)%Z.
Proof.
  revert m. induction es as [|e es IH]; intros m Hle; simpl; [exact Hle|].
  apply IH. unfold step. rewrite st_commit. apply recordingTime_handle, Hle.
Qed.

(** A tick below the limit only advances the counter. *)
Lemma tick_below c t m :
  timerRef m = Some c ->
  (t + 1 < MAX_RECORDING_TIME)%Z ->
  step Tick (setState (setRecordingTime t) m) =
    setState (setRecordingTime (t + 1)) m.
Proof.
  intros Ht Hlt. unfold step. simpl. rewrite Ht. unfold intervalTick. simpl.
  destruct (Z.geb_spec (t + 1) MAX_RECORDING_TIME); [lia|].
  apply commit_same; reflexivity.
Qed.

Lemma ticks_below c (k : nat) t m :
  timerRef m = Some c ->
  (t + Z.of_nat k < MAX_RECORDING_TIME)%Z ->
  run (replicate k Tick) (setState (setRecordingTime t) m) =
    setState (setRecordingTime (t + Z.of_nat k)) m.
Proof.
  intros Ht. revert t. induction k as [|k IH]; intros t Hlt.
  - simpl. rewrite Z.add_0_r. reflexivity.
  - simpl. rewrite (tick_below c) by (assumption || lia).
    rewrite IH by lia. f_equal. f_equal. lia.
Qed.

Lemma setRecordingTime_same m :
  setState (setRecordingTime (recordingTime (st m))) m = m.
Proof. destruct m as [s rs us v t cs]. destruct s. reflexivity. Qed.

(** ** Counting track stops *)

Lemma stops_app t l1 l2 : stops t (l1 ++ l2) = stops t l1 + stops t l2.
Proof. unfold stops. rewrite List.filter_app, length_app. reflexivity. Qed.

Lemma stops_TrackStop_in t ts : In t ts -> 1 <= stops t (List.map TrackStop ts).
Proof.
  induction ts as [|x ts IH]; intros Hin; [destruct Hin|].
  change (List.map TrackStop (x :: ts)) with ([TrackStop x] ++ List.map TrackStop ts).
  rewrite stops_app. destruct Hin as [->|Hin].
  - unfold stops at 1. simpl. rewrite bool_decide_eq_true_2 by reflexivity.
    simpl. lia.
  - specialize (IH Hin). lia.
Qed.

(** What [stopRecording] adds to the log: possibly an encoder stop, then one
    stop per track of the closure's stream. *)
Lemma calls_stopRecording c m :
  exists pre,
    calls (stopRecording c m) =
    calls m ++ pre ++ match stream c with
                      | Some s => List.map TrackStop (getTracks s)
                      | None => []
                      end.
Proof.
  unfold stopRecording. rewrite calls_setSrcObject.
  destruct (mediaRecorder c) as [r|].
  - destruct (recorders m !! r) as [R|].
    + case_bool_decide.
      * exists [RecorderStop r]. destruct (stream c); simpl;
          rewrite <- ?app_assoc; reflexivity.
      * exists []. destruct (stream c); simpl; rewrite ?app_nil_r; reflexivity.
    + exists []. destruct (stream c); simpl; rewrite ?app_nil_r; reflexivity.
  - exists []. destruct (stream c); simpl; rewrite ?app_nil_r; reflexivity.
Qed.

Lemma stops_stopRecording c m s t :
  stream c = Some s -> In t (tracks s) ->
  stops t (calls m) < stops t (calls (stopRecording c m)).
Proof.
  intros Hs Hin. destruct (calls_stopRecording c m) as (pre & ->).
  rewrite Hs, !stops_app.
  pose proof (stops_TrackStop_in t (getTracks s) Hin). lia.
Qed.

Lemma stops_commit prev m t :
  stops t (calls m) <= stops t (calls (commit prev m)).
Proof. rewrite calls_commit, stops_app. lia. Qed.

(** [stopRecording] from a render that holds a running encoder and its
    stream. *)
Lemma stopRecording_active c m r R s :
  mediaRecorder c = Some r ->
  recorders m !! r = Some R ->
  rec_state R = recording ->
  stream c = Some s ->
  let m' := stopRecording c m in
  st m' = setStream None (setIsRecording false (st m)) /\
  calls m' = calls m ++ RecorderStop r :: List.map TrackStop (getTracks s) /\
  timerRef m' = timerRef m /\
  exists R', recorders m' !! r = Some R' /\ rec_state R' = inactive /\
             rec_stop_queued R' = true /\ sameSession R R'.
Proof.
  intros Hr HR Hstate Hs m'. subst m'.
  rewrite st_stopRecording, Hs. split; [reflexivity|].
  unfold stopRecording.
  rewrite calls_setSrcObject, timerRef_setSrcObject, recorders_setSrcObject.
  rewrite Hr, HR, Hs, bool_decide_eq_true_2 by exact Hstate. simpl.
  rewrite <- app_assoc. split; [reflexivity|]. split; [reflexivity|].
  eexists. split; [apply list_lookup_insert_eq; eapply lookup_lt_Some; exact HR|].
  repeat split.
Qed.

Lemma run_app es1 es2 m : run (es1 ++ es2) m = run es2 (run es1 m).
Proof. unfold run. apply fold_left_app. Qed.

(** A session left to itself: 179 ticks only count; the 180th runs
    [stopRecording] of the render that installed the interval, which holds
    the session's encoder and stream. *)
Lemma session_timeout e p m :
  begins e p ->
  isRecording (st m) = false ->
  isRecording (st (step e m)) = true ->
  let m1 := step e m in
  let r := length (recorders m) in
  (forall k : nat, k < 180 ->
     run (replicate k Tick) m1 = setState (setRecordingTime (Z.of_nat k)) m1) /\
  let m2 := run (replicate 180 Tick) m1 in
  st m2 = setRecordingTime MAX_RECORDING_TIME
            (setStream None (setIsRecording false (st m1))) /\
  timerRef m2 = None /\
  (exists s, stream (st m1) = Some s /\
             calls m2 = calls m1 ++ RecorderStop r ::
                          List.map TrackStop (getTracks s) ++
                          List.map TrackStop (getTracks s)) /\
  exists R', recorders m2 !! r = Some R' /\ rec_state R' = inactive /\
             rec_stop_queued R' = true.
Proof.
  intros Hb Hoff Hon m1 r.
  destruct (begin_session e p m Hb Hoff Hon) as (d & Hcan & Hst & Hrs & Ht).
  fold m1 in Hst, Hrs, Ht. fold r in Hst. cbv zeta in Hst.
  set (s := (combinedStream p d).1) in *.
  assert (Htime : recordingTime (st m1) = 0%Z) by (rewrite Hst; reflexivity).
  assert (Hticks : forall k : nat, k < 180 ->
            run (replicate k Tick) m1 = setState (setRecordingTime (Z.of_nat k)) m1).
  { intros k Hk. rewrite <- (setRecordingTime_same m1) at 1. rewrite Htime.
    rewrite (ticks_below (st m1)); [reflexivity|exact Ht|].
    unfold MAX_RECORDING_TIME. lia. }
  split; [exact Hticks|].
  assert (H180 : run (replicate 180 Tick) m1 =
                 step Tick (setState (setRecordingTime 179) m1)).
  { change 180 with (179 + 1). rewrite replicate_add, run_app.
    rewrite Hticks by lia. reflexivity. }
  cbv zeta. rewrite H180. clear H180.
  set (m' := setState (setRecordingTime 179) m1).
  assert (HR : recorders m' !! r = Some (startedRecorder (st m) p d))
    by (subst m'; simpl; rewrite Hrs; apply list_lookup_middle; reflexivity).
  assert (Hmr : mediaRecorder (st m1) = Some r) by (rewrite Hst; reflexivity).
  assert (Hs : stream (st m1) = Some s) by (rewrite Hst; reflexivity).
  assert (Hrec : isRecording (st m1) = true) by (rewrite Hst; reflexivity).
  destruct (stopRecording_active (st m1) m' r _ s Hmr HR eq_refl Hs)
    as (Hst' & Hcalls' & Ht' & R' & HR' & Hin & Hq & _).
  unfold step. simpl. rewrite Ht.
  rewrite intervalTick_limit by (simpl; unfold MAX_RECORDING_TIME; lia).
  rewrite st_commit, timerRef_commit, calls_commit, recorders_commit. simpl.
  rewrite Hst', Hcalls'. simpl. rewrite Hrec, Hs. simpl.
  split; [reflexivity|]. split; [reflexivity|].
  split.
  - exists s. split; [reflexivity|].
    destruct (decide (Some s = None)); [discriminate|].
    rewrite <- app_assoc. reflexivity.
  - exists R'. auto.
Qed.

(** C1. The elapsed-time counter stays at or below 180 whatever events
    occur; a tick that would bring it to 180 or beyond runs [stopRecording],
    sets the counter to 180 and leaves [isRecording] false; and a session left
    to itself counts 1, 2, ... 179 while recording and on its 180th tick is
    at 180, no longer recording, its interval cleared and its encoder
    stopped. *)
Theorem recording_time_ceiling :
  (forall es : list Event,
      (recordingTime (st (run es initialMachine)) <= MAX_RECORDING_TIME)%Z) /\
  (forall (c : AppState) (m : Machine),
      let m' := intervalTick c m in
      (recordingTime (st m') <= MAX_RECORDING_TIME)%Z /\
      ((recordingTime (st m) + 1 >= MAX_RECORDING_TIME)%Z ->
       m' = setState (setRecordingTime MAX_RECORDING_TIME) (stopRecording c m) /\
       recordingTime (st m') = MAX_RECORDING_TIME /\
       isRecording (st m') = false)) /\
  (forall (e : Event) (p : Platform) (m : Machine),
      begins e p ->
      isRecording (st m) = false ->
      isRecording (st (step e m)) = true ->
      let m1 := step e m in
      let r := length (recorders m) in
      (forall k : nat, k < 180 ->
         recordingTime (st (run (replicate k Tick) m1)) = Z.of_nat k /\
         isRecording (st (run (replicate k Tick) m1)) = true) /\
      let m2 := run (replicate 180 Tick) m1 in
      recordingTime (st m2) = MAX_RECORDING_TIME /\
      isRecording (st m2) = false /\
      timerRef m2 = None /\
      In (RecorderStop r) (calls m2) /\
      exists R, recorders m2 !! r = Some R /\ rec_state R = inactive).
Proof.
  split; [|split].
  - intros es. apply recordingTime_run. unfold MAX_RECORDING_TIME. simpl. lia.
  - intros c m m'. subst m'. split; [apply intervalTick_le|].
    intros Hlim. rewrite (intervalTick_limit c m Hlim). simpl.
    rewrite isRecording_stopRecording. auto.
  - intros e p m Hb Hoff Hon m1 r.
    destruct (session_timeout e p m Hb Hoff Hon)
      as (Hticks & Hst & Ht & (s & _ & Hcalls) & (R & HR & Hin & _)).
    fold m1 r in Hticks, Hst, Ht, Hcalls, HR.
    split.
    + intros k Hk. rewrite (Hticks k Hk). split; [reflexivity|exact Hon].
    + cbv zeta. rewrite Hst, Ht, Hcalls.
      split; [reflexivity|]. split; [reflexivity|]. split; [reflexivity|].
      split.
      * apply in_or_app. right. left. reflexivity.
      * exists R. split; assumption.
Qed.

Lemma recording_time_ceiling_witness :
  let m1 := step (ClickStart platformWithMic) initialMachine in
  (forall k : nat, k < 180 ->
     recordingTime (st (run (replicate k Tick) m1)) = Z.of_nat k /\
     isRecording (st (run (replicate k Tick) m1)) = true) /\
  let m2 := run (replicate 180 Tick) m1 in
  recordingTime (st m2) = MAX_RECORDING_TIME /\
  isRecording (st m2) = false /\
  timerRef m2 = None /\
  In (RecorderStop 0) (calls m2) /\
  exists R, recorders m2 !! 0 = Some R /\ rec_state R = inactive.
Proof.
  apply (proj2 (proj2 recording_time_ceiling) (ClickStart platformWithMic)
           platformWithMic initialMachine).
  - left. reflexivity.
  - reflexivity.
  - reflexivity.
Defined.

(** ** Releasing the tracks *)

Lemma calls_RecorderStopped r R m :
  recorders m !! r = Some R ->
  exists pre post,
    calls (step (RecorderStopped r) m) =
    calls m ++ pre ++ List.map TrackStop (getTracks (rec_stream R)) ++ post.
Proof.
  intros HR. unfold step. rewrite calls_commit. simpl.
  unfold onstop, stopDelivered. rewrite HR. simpl.
  rewrite list_lookup_insert_eq by (eapply lookup_lt_Some; exact HR). simpl.
  eexists [_], _. rewrite <- !app_assoc. reflexivity.
Qed.

(** Every track of the screen-capture stream, and every audio track of the
    microphone stream, is in the stream given to the encoder. *)
Lemma combinedStream_covers p d :
  (forall t, In t (tracks d) -> In t (tracks (combinedStream p d).1)) /\
  (forall mic, getUserMedia p = inr mic ->
     forall t, In t (getAudioTracks mic) -> In t (tracks (combinedStream p d).1)).
Proof.
  unfold combinedStream. destruct (getUserMedia p) as [msg|mic]; simpl.
  - split; [auto|]. intros mic' Hm. discriminate.
  - split.
    + intros t Hin. apply in_or_app.
      unfold getVideoTracks, getAudioTracks.
      destruct (is_video t) eqn:Hv.
      * left. apply List.filter_In. auto.
      * right. apply in_or_app. left. apply List.filter_In. split; [exact Hin|].
        unfold is_video, is_audio in *. destruct (kind t); congruence.
    + intros mic' Hm t Hin. injection Hm as <-.
      apply in_or_app. right. apply in_or_app. right. exact Hin.
Qed.

(** The manual-stop path on the sample platform: three stop calls per
    track (by [stopRecording], by the clean-up of the [stream] effect, by the
    recorder's [stop] handler). *)
Example manual_stop_three_stops :
  let m := run [ClickStart platformWithMic; ClickStop; RecorderStopped 0]
             initialMachine in
  stops screenVideo (calls m) = 3 /\
  stops screenAudio (calls m) = 3 /\
  stops micAudio (calls m) = 3.
Proof. vm_compute. auto. Qed.

(** A start that fails for lack of a supported format, first session: the
    captured stream stays in [stream] and none of its tracks is stopped. *)
Example start_error_no_stop :
  let m := run [ClickStart platformNoFormat] initialMachine in
  stream (st m) = Some screenStream /\
  isRecording (st m) = false /\
  stops screenVideo (calls m) = 0 /\
  stops screenAudio (calls m) = 0.
Proof. vm_compute. auto. Qed.

(** C2 as stated fails: after start, manual stop and the recorder's [stop]
    event, the acquired tracks have not received exactly one stop call. *)
Lemma tracks_not_stopped_exactly_once :
  ~ eachStoppedOnce (tracks screenStream ++ tracks micStream)
      initialMachine
      (run [ClickStart platformWithMic; ClickStop; RecorderStopped 0]
         initialMachine).
Proof.
  intros H. apply Forall_inv in H. vm_compute in H. discriminate H.
Qed.

(** * Properties of the recordings service *)

Import Server.

Lemma selectById_fresh i rows :
  Forall (fun r => id r < i) rows ->
  List.filter (fun r => (id r =? i)%nat) rows = [].
Proof.
  induction 1 as [|r rows Hr _ IH]; simpl; [reflexivity|].
  destruct (Nat.eqb_spec (id r) i); [lia|exact IH].
Qed.

(** The counter stays above every id when a recording is posted. *)
Lemma ids_below_counter_post file o s :
  ids_below_counter s -> ids_below_counter (postRecordings file o s).2.
Proof.
  unfold ids_below_counter, postRecordings. intros H.
  destruct file as [body|]; simpl; [|exact H].
  destruct (fileSize <? N.of_nat (length body))%N; simpl; [exact H|].
  destruct (db_ok o); simpl; [|exact H].
  apply Forall_app. split.
  - eapply Forall_impl; [exact H|]. simpl. intros r Hr. lia.
  - repeat constructor.
Qed.

(** C6. Round trip.  After a [POST /api/recordings] that answers 201 for a
    file of [S] bytes, [GET /api/recordings/:id] with the returned id streams
    exactly those bytes (so [S] of them) as [video/webm], and
    [GET /api/recordings] lists a row with that id whose [size] is [S]; the
    database is taken to answer both reads. *)
Theorem upload_round_trip
    (s s' : State) (o o' : Outside) (body : list Byte.byte)
    (message : string) (recordingId : nat) :
  ids_below_counter s ->
  postRecordings (Some body) o s = (Created message recordingId, s') ->
  db_ok o' = true ->
  (exists stream,
      getRecording recordingId o' s' = Stream "video/webm" stream /\
      stream = body /\ length stream = length body) /\
  (exists rows row,
      getRecordings o' s' = Rows rows /\ In row rows /\
      id row = recordingId /\ size row = N.of_nat (length body)).
Proof.
  intros Hwf Hpost Hdb. unfold postRecordings in Hpost.
  destruct (fileSize <? N.of_nat (length body))%N; [discriminate|].
  destruct (db_ok o); simpl in Hpost; [|discriminate].
  injection Hpost as _ <- <-.
  unfold getRecording, getRecordings, selectById, selectAll. rewrite Hdb. simpl.
  split.
  - rewrite List.filter_app.
    rewrite (selectById_fresh (auto_increment s) (recordings s) Hwf). simpl.
    rewrite Nat.eqb_refl. simpl. rewrite lookup_insert_eq.
    exists body. auto.
  - match goal with
    | |- context [recordings s ++ [?row]] =>
        exists (merge_sort newer_first (recordings s ++ [row])), row
    end.
    split; [reflexivity|]. split; [|split; reflexivity].
    apply list_elem_of_In. rewrite merge_sort_Permutation.
    apply list_elem_of_In, in_or_app. right. left. reflexivity.
Qed.

Lemma upload_round_trip_witness :
  let o := {| now := 1700000000000%N; random := 123456789%N;
              current_timestamp := 1700000000%N; db_ok := true |} in
  let body := [Byte.x1a; Byte.x45; Byte.xdf; Byte.xa3] in
  let s' := (postRecordings (Some body) o seeded).2 in
  (exists stream,
      getRecording 4 o s' = Stream "video/webm" stream /\
      stream = body /\ length stream = length body) /\
  (exists rows row,
      getRecordings o s' = Rows rows /\ In row rows /\
      id row = 4 /\ size row = N.of_nat (length body)).
Proof.
  apply (upload_round_trip seeded _
           {| now := 1700000000000%N; random := 123456789%N;
              current_timestamp := 1700000000%N; db_ok := true |}
           _ _ "File uploaded successfully!" 4).
  - repeat constructor.
  - reflexivity.
  - reflexivity.
Defined.

(** * Further properties of the capture session controller *)

Import App.

(** ** What the handlers leave alone *)

Ltac unfold_handlers :=
  unfold startRecording, acquireAndRecord, catchStart, newMediaRecorder,
    recorderStart, stopRecording, recorderStop, handleUpload, clearRecording,
    intervalTick, ondataavailable, onstop, onerror, onended, stopDelivered,
    uploadStatusTimeout, resetRecording, stopTracks, createObjectURL.

Ltac crush_handlers :=
  simpl;
  repeat (unfold_handlers; simpl; autorewrite with machine; simpl; case_match);
  unfold_handlers; simpl; autorewrite with machine; simpl.

Lemma timerRef_handle e m : timerRef (handle e m) = timerRef m.
Proof. destruct e; crush_handlers; congruence. Qed.

Lemma timerOk_step e m : timerOk m -> timerOk (step e m).
Proof.
  unfold timerOk, step. intros H.
  rewrite timerRef_commit, st_commit, timerRef_handle.
  case_bool_decide as Hsame.
  - rewrite <- Hsame. exact H.
  - destruct (isRecording (st (handle e m))); reflexivity.
Qed.

Lemma timerOk_run es m : timerOk m -> timerOk (run es m).
Proof.
  revert m. induction es as [|e es IH]; intros m H; simpl; [exact H|].
  apply IH, timerOk_step, H.
Qed.


(** ** The artifact: one blob, one URL *)

Lemma keepsArtifact_refl m : keepsArtifact m m.
Proof. repeat split. Qed.

Lemma keepsArtifact_trans m1 m2 m3 :
  keepsArtifact m1 m2 -> keepsArtifact m2 m3 -> keepsArtifact m1 m3.
Proof. intros (A & B & C) (D & E & F). repeat split; congruence. Qed.

Lemma keepsArtifact_stopRecording c m : keepsArtifact m (stopRecording c m).
Proof.
  unfold keepsArtifact. rewrite st_stopRecording.
  split; [destruct (stream c); reflexivity|].
  split; [destruct (stream c); reflexivity|].
  unfold stopRecording. rewrite objectUrls_setSrcObject.
  repeat case_match; reflexivity.
Qed.

Lemma keepsArtifact_acquireAndRecord c p m :
  keepsArtifact m (acquireAndRecord c p m).
Proof.
  unfold keepsArtifact.
  destruct (acquireAndRecord_keeps c p m) as (_ & -> & -> & _).
  split; [reflexivity|]. split; [reflexivity|].
  unfold acquireAndRecord, catchStart, newMediaRecorder, recorderStart. simpl.
  repeat (case_match; simpl; autorewrite with machine; simpl); reflexivity.
Qed.

Lemma keepsArtifact_handleUpload c res m : keepsArtifact m (handleUpload c res m).
Proof. unfold keepsArtifact, handleUpload. repeat case_match; repeat split. Qed.

Lemma keepsArtifact_commit prev m : keepsArtifact m (commit prev m).
Proof.
  unfold keepsArtifact. rewrite st_commit.
  unfold commit, streamCleanup, timerEffect. repeat case_match; repeat split.
Qed.

Lemma artifactOk_keeps m m' : keepsArtifact m m' -> artifactOk m -> artifactOk m'.
Proof. unfold artifactOk. intros (-> & -> & ->) H. exact H. Qed.

Lemma artifactOk_none m :
  recordingUrl (st m) = None -> recordedChunks (st m) = [] -> artifactOk m.
Proof. unfold artifactOk. intros -> ->. exact I. Qed.

Lemma artifactOk_startRecording c p m : artifactOk (startRecording c p m).
Proof.
  unfold startRecording.
  eapply artifactOk_keeps; [apply keepsArtifact_acquireAndRecord|].
  apply artifactOk_none; reflexivity.
Qed.

Lemma artifactOk_onstop r m : artifactOk (onstop r (stopDelivered r m)) \/
                              onstop r (stopDelivered r m) = m.
Proof.
  unfold onstop, stopDelivered.
  destruct (recorders m !! r) as [R|] eqn:HR; [left|right; rewrite HR; reflexivity].
  simpl. rewrite list_lookup_insert_eq by (eapply lookup_lt_Some; exact HR).
  unfold artifactOk. simpl. apply list_lookup_middle. reflexivity.
Qed.

Lemma artifactOk_handle e m : artifactOk m -> artifactOk (handle e m).
Proof.
  intros H. destruct e; simpl.
  - case_match; [apply artifactOk_startRecording|exact H].
  - case_match; [apply artifactOk_startRecording|exact H].
  - case_match; [|exact H].
    eapply artifactOk_keeps; [apply keepsArtifact_stopRecording|exact H].
  - case_match; [|exact H].
    eapply artifactOk_keeps; [apply keepsArtifact_handleUpload|exact H].
  - case_match; [|exact H].
    apply artifactOk_none; unfold clearRecording; rewrite st_setSrcObject;
      reflexivity.
  - exact H.
  - destruct (timerRef m) as [c|]; [|exact H].
    unfold intervalTick. case_match; [|exact H].
    eapply artifactOk_keeps; [|exact H].
    destruct (keepsArtifact_stopRecording c m) as (A & B & C).
    repeat split; assumption.
  - unfold ondataavailable. repeat case_match; exact H.
  - destruct (artifactOk_onstop r m) as [Hok| ->]; assumption.
  - unfold onerror. case_match; [|exact H].
    eapply artifactOk_keeps; [apply keepsArtifact_stopRecording|exact H].
  - unfold onended. repeat case_match; try exact H.
    eapply artifactOk_keeps; [apply keepsArtifact_stopRecording|exact H].
Qed.

Lemma artifactOk_step e m : artifactOk m -> artifactOk (step e m).
Proof.
  intros H. unfold step.
  eapply artifactOk_keeps; [apply keepsArtifact_commit|].
  apply artifactOk_handle, H.
Qed.

Lemma artifactOk_run es m : artifactOk m -> artifactOk (run es m).
Proof.
  revert m. induction es as [|e es IH]; intros m H; simpl; [exact H|].
  apply IH, artifactOk_step, H.
Qed.

(** X1. Whatever events occur from the initial machine, the component holds
    either no artifact (no preview URL and no chunk) or exactly one: a
    single chunk, and a preview URL that denotes that same blob in the blob
    store. *)
Theorem artifact_is_single_and_consistent (es : list Event) :
  let m := run es initialMachine in
  (recordingUrl (st m) = None /\ recordedChunks (st m) = []) \/
  (exists u blob,
      recordingUrl (st m) = Some u /\ recordedChunks (st m) = [blob] /\
      objectUrls m !! u = Some blob).
Proof.
  intros m.
  assert (H : artifactOk m) by (apply artifactOk_run; exact I).
  unfold artifactOk in H.
  destruct (recordingUrl (st m)) as [u|];
    destruct (recordedChunks (st m)) as [|b [|b' bs]]; try contradiction.
  - right. exists u, b. auto.
  - left. auto.
Qed.

(** ** The alert of handleUpload *)

Lemma noAlert_app l1 l2 : noAlert l1 -> noAlert l2 -> noAlert (l1 ++ l2).
Proof. unfold noAlert. intros. apply Forall_app. auto. Qed.

Lemma noAlert_stops ts : noAlert (List.map TrackStop ts).
Proof. induction ts; constructor; auto. Qed.

Ltac no_alert :=
  repeat match goal with
         | |- noAlert (_ ++ _) => apply noAlert_app
         | |- noAlert (List.map TrackStop _) => apply noAlert_stops
         | |- noAlert [] => constructor
         | |- noAlert (_ :: _) => constructor; [reflexivity|]
         | |- noAlert _ => assumption
         | |- Forall _ ?l => change (noAlert l)
         end.

Lemma noAlert_stopRecording c m :
  noAlert (calls m) -> noAlert (calls (stopRecording c m)).
Proof.
  intros H. unfold stopRecording. rewrite calls_setSrcObject.
  repeat case_match; simpl; unfold stopTracks; simpl; no_alert.
Qed.

Lemma noAlert_catchStart c msg m :
  noAlert (calls m) -> noAlert (calls (catchStart c msg m)).
Proof.
  intros H. rewrite calls_catchStart. destruct (stream c); no_alert.
Qed.

Lemma noAlert_acquireAndRecord c p m :
  noAlert (calls m) -> noAlert (calls (acquireAndRecord c p m)).
Proof.
  intros H. unfold acquireAndRecord.
  case_match; [apply noAlert_catchStart; exact H|].
  case_match; [apply noAlert_catchStart; simpl; no_alert|].
  assert (Hc : noAlert (combinedStream p m0).2)
    by (unfold combinedStream; case_match; simpl; no_alert).
  destruct (combinedStream p m0) as [s cs]. simpl in Hc.
  case_match; [apply noAlert_catchStart; simpl; no_alert|].
  unfold newMediaRecorder.
  case_match; [apply noAlert_catchStart; simpl; no_alert|].
  rewrite calls_setSrcObject. unfold recorderStart. simpl.
  rewrite list_lookup_middle by reflexivity. simpl. no_alert.
Qed.

Lemma noAlert_handle e m :
  artifactOk m -> noAlert (calls m) -> noAlert (calls (handle e m)).
Proof.
  intros Hart H. destruct e; simpl.
  - case_match; [|exact H]. apply noAlert_acquireAndRecord. exact H.
  - case_match; [|exact H]. apply noAlert_acquireAndRecord. simpl.
    unfold clearRecording. rewrite calls_setSrcObject. exact H.
  - case_match; [|exact H]. apply noAlert_stopRecording, H.
  - unfold artifactOk, hasUrl in *.
    destruct (recordingUrl (st m)); simpl; [|exact H].
    destruct (negb (isRecording (st m)) &&
              negb (bool_decide (uploadStatus (st m) = "uploading")));
      [|exact H].
    unfold handleUpload.
    destruct (recordedChunks (st m)) as [|b [|b' bs]]; try contradiction.
    destruct res; simpl; no_alert.
  - case_match; [|exact H].
    unfold clearRecording. rewrite calls_setSrcObject. exact H.
  - exact H.
  - destruct (timerRef m) as [c|]; [|exact H].
    unfold intervalTick. case_match; [|exact H].
    simpl. apply noAlert_stopRecording, H.
  - unfold ondataavailable. repeat case_match; exact H.
  - unfold onstop, stopDelivered.
    destruct (recorders m !! r) as [R|] eqn:HR; [|rewrite HR; exact H].
    simpl. rewrite list_lookup_insert_eq by (eapply lookup_lt_Some; exact HR).
    simpl. unfold stopTracks. simpl. no_alert.
  - unfold onerror. case_match; [|exact H].
    apply noAlert_stopRecording, H.
  - unfold onended. repeat case_match; try exact H.
    apply noAlert_stopRecording, H.
Qed.

Lemma noAlert_run es m :
  artifactOk m -> noAlert (calls m) -> noAlert (calls (run es m)).
Proof.
  revert m. induction es as [|e es IH]; intros m Hart H; simpl; [exact H|].
  apply IH; [apply artifactOk_step, Hart|].
  unfold step. rewrite calls_commit.
  apply noAlert_app; [apply noAlert_handle; assumption|].
  repeat case_match; no_alert.
Qed.

(** X2. The alert of [handleUpload] ("No recording available to upload.")
    is dead code behind the buttons: whatever events occur from the initial
    machine, no call in the log of platform calls is an alert, because the
    upload button is rendered only with a preview URL and the URL never
    exists without its chunk. *)
Theorem upload_alert_unreachable (es : list Event) :
  Forall (fun c => isAlert c = false) (calls (run es initialMachine)).
Proof. apply noAlert_run; [exact I|constructor]. Qed.

(** ** The interval *)

(** X3. Whatever events occur from the initial machine, an interval is
    installed exactly while [isRecording] holds; once the component is not
    recording a timer tick changes nothing, so the counter stands still. *)
Theorem interval_only_while_recording (es : list Event) :
  let m := run es initialMachine in
  (isRecording (st m) = true <-> exists c, timerRef m = Some c) /\
  (isRecording (st m) = false -> step Tick m = m).
Proof.
  intros m.
  assert (H : timerOk m) by (apply timerOk_run; reflexivity).
  unfold timerOk in H. split.
  - destruct (timerRef m) as [c|]; split; intros H'.
    + exists c. reflexivity.
    + exact H.
    + congruence.
    + destruct H' as (c & Hc). discriminate.
  - intros Hoff. destruct (timerRef m) as [c|] eqn:Ht; [congruence|].
    unfold step. simpl. rewrite Ht. apply commit_same; reflexivity.
Qed.

Lemma interval_only_while_recording_witness :
  let m := run [ClickStart platformWithMic; Tick; ClickStop] initialMachine in
  step Tick m = m.
Proof.
  apply (proj2 (interval_only_while_recording
                  [ClickStart platformWithMic; Tick; ClickStop])).
  reflexivity.
Defined.

(** ** The timer display *)

Lemma displaysAs_below_6000 :
  forallb (fun n => displaysAs (Z.of_nat n)) (seq 0 (Z.to_nat 6000)) = true.
Proof. vm_compute. reflexivity. Qed.

(** X4. For every number of seconds from 0 up to 99 minutes 59 seconds,
    [formatTime] gives five characters, two digits of minutes, a colon and
    two digits of seconds, which read back as that number; so different
    times are displayed differently. *)
Theorem formatTime_mm_ss (seconds : Z) :
  (0 <= seconds < 6000)%Z ->
  String.length (formatTime seconds) = 5 /\
  parseTime (formatTime seconds) = Some seconds /\
  forall other : Z,
    (0 <= other < 6000)%Z ->
    formatTime other = formatTime seconds -> other = seconds.
Proof.
  assert (Hall : forall s : Z, (0 <= s < 6000)%Z -> displaysAs s = true).
  { intros s Hs. pose proof displaysAs_below_6000 as Hchk.
    rewrite forallb_forall in Hchk.
    specialize (Hchk (Z.to_nat s)).
    rewrite Z2Nat.id in Hchk by lia. apply Hchk.
    apply in_seq. lia. }
  intros Hs. pose proof (Hall seconds Hs) as H.
  unfold displaysAs in H. apply andb_true_iff in H as [Hlen Hparse].
  apply bool_decide_eq_true_1 in Hlen, Hparse.
  split; [exact Hlen|]. split; [exact Hparse|].
  intros other Ho Heq.
  pose proof (Hall other Ho) as H'.
  unfold displaysAs in H'. apply andb_true_iff in H' as [_ Hparse'].
  apply bool_decide_eq_true_1 in Hparse'.
  rewrite Heq in Hparse'. congruence.
Qed.

Lemma formatTime_mm_ss_witness :
  String.length (formatTime 75) = 5 /\
  parseTime (formatTime 75) = Some 75%Z /\
  forall other : Z,
    (0 <= other < 6000)%Z ->
    formatTime other = formatTime 75 -> other = 75%Z.
Proof. apply (formatTime_mm_ss 75). lia. Defined.

Lemma recordingTime_handle_nonneg e m :
  (0 <= recordingTime (st m))%Z -> (0 <= recordingTime (st (handle e m)))%Z.
Proof.
  intros Hle. destruct e; simpl.
  - case_match; [|exact Hle]. unfold startRecording.
    destruct (acquireAndRecord_keeps (st m) p (resetRecording m)) as (-> & _).
    simpl. lia.
  - case_match; [|exact Hle]. unfold startRecording.
    destruct (acquireAndRecord_keeps (st m) p (resetRecording (clearRecording m)))
      as (-> & _).
    simpl. lia.
  - case_match; [|exact Hle]. rewrite recordingTime_stopRecording. exact Hle.
  - case_match; [|exact Hle]. unfold handleUpload.
    repeat case_match; exact Hle.
  - case_match; [|exact Hle]. unfold clearRecording.
    rewrite st_setSrcObject. simpl. lia.
  - exact Hle.
  - destruct (timerRef m); [|exact Hle]. unfold intervalTick, MAX_RECORDING_TIME.
    case_match; simpl; lia.
  - unfold ondataavailable. repeat case_match; exact Hle.
  - unfold onstop, stopDelivered.
    destruct (recorders m !! r) as [R|] eqn:HR; simpl; [|rewrite HR; exact Hle].
    case_match; exact Hle.
  - unfold onerror. case_match; [|exact Hle].
    rewrite recordingTime_stopRecording. exact Hle.
  - unfold onended. repeat case_match; try exact Hle.
    rewrite recordingTime_stopRecording. exact Hle.
Qed.

Lemma recordingTime_run_nonneg es m :
  (0 <= recordingTime (st m))%Z -> (0 <= recordingTime (st (run es m)))%Z.
Proof.
  revert m. induction es as [|e es IH]; intros m Hle; simpl; [exact Hle|].
  apply IH. unfold step. rewrite st_commit.
  apply recordingTime_handle_nonneg, Hle.
Qed.

(** X5. Whatever events occur from the initial machine, the elapsed time
    is never negative, the time remaining stays between 0 and 180, and both
    are shown as five-character mm:ss displays that read back as their
    values. *)
Theorem timer_display_well_formed (es : list Event) :
  let s := st (run es initialMachine) in
  (0 <= recordingTime s)%Z /\
  (0 <= timeRemaining s <= MAX_RECORDING_TIME)%Z /\
  parseTime (formatTime (recordingTime s)) = Some (recordingTime s) /\
  parseTime (formatTime (timeRemaining s)) = Some (timeRemaining s) /\
  String.length (formatTime (recordingTime s)) = 5 /\
  String.length (formatTime (timeRemaining s)) = 5.
Proof.
  intros s.
  assert (H0 : (0 <= recordingTime s)%Z)
    by (apply recordingTime_run_nonneg; simpl; lia).
  assert (H1 : (recordingTime s <= MAX_RECORDING_TIME)%Z)
    by (apply recordingTime_run; unfold MAX_RECORDING_TIME; simpl; lia).
  unfold timeRemaining, MAX_RECORDING_TIME in *.
  destruct (formatTime_mm_ss (recordingTime s)) as (L1 & P1 & _); [lia|].
  destruct (formatTime_mm_ss (180 - recordingTime s)) as (L2 & P2 & _); [lia|].
  repeat split; try assumption; lia.
Qed.

(** ** The chunk buffer *)

Section KeptBy.

Variable P : Recorder -> Recorder -> Prop.
Hypothesis P_refl : forall R, P R R.
Hypothesis P_trans : forall R1 R2 R3, P R1 R2 -> P R2 R3 -> P R1 R3.

Lemma keptBy_refl l : keptBy P l l.
Proof. intros r R H. exists R. auto. Qed.

Lemma keptBy_trans l1 l2 l3 : keptBy P l1 l2 -> keptBy P l2 l3 -> keptBy P l1 l3.
Proof.
  intros H12 H23 r R H.
  destruct (H12 r R H) as (R2 & H2 & HP2).
  destruct (H23 r R2 H2) as (R3 & H3 & HP3).
  exists R3. eauto.
Qed.

Lemma keptBy_app l l2 : keptBy P l (l ++ l2).
Proof.
  intros r R H. exists R. split; [|apply P_refl].
  apply lookup_app_l_Some, H.
Qed.

Lemma keptBy_insert l r R R' :
  l !! r = Some R -> P R R' -> keptBy P l (<[r := R']> l).
Proof.
  intros Hr HP i Ri Hi.
  destruct (decide (r = i)) as [->|Hne].
  - exists R'. split.
    + apply list_lookup_insert_eq. eapply lookup_lt_Some, Hi.
    + congruence.
  - exists Ri. split; [|apply P_refl].
    rewrite list_lookup_insert_ne by exact Hne. exact Hi.
Qed.

(** The handlers other than [ondataavailable] only replace a recorder by
    one with the same fields but [rec_state] and [rec_stop_queued]. *)
Hypothesis P_state :
  forall R st q,
    P R {| rec_state := st; rec_stop_queued := q; rec_stream := rec_stream R;
           rec_mimeType := rec_mimeType R; rec_chunks := rec_chunks R;
           rec_display := rec_display R; rec_closure := rec_closure R |}.

Lemma keptBy_stopRecording c m :
  keptBy P (recorders m) (recorders (stopRecording c m)).
Proof.
  unfold stopRecording. rewrite recorders_setSrcObject.
  assert (Hk : forall m1, keptBy P (recorders m) (recorders m1) ->
     keptBy P (recorders m)
       (recorders match stream c with
                  | Some s => setState (setStream None)
                                (stopTracks s (setState (setIsRecording false) m1))
                  | None => setState (setIsRecording false) m1
                  end))
    by (intros m1 H; destruct (stream c); exact H).
  apply Hk.
  destruct (mediaRecorder c) as [r|]; [|apply keptBy_refl].
  destruct (recorders m !! r) as [R|] eqn:HR; [|apply keptBy_refl].
  case_bool_decide; [|apply keptBy_refl].
  simpl. eapply keptBy_insert; [exact HR|apply P_state].
Qed.

Lemma keptBy_acquireAndRecord c p m :
  keptBy P (recorders m) (recorders (acquireAndRecord c p m)).
Proof.
  unfold acquireAndRecord.
  destruct (negb (hasGetDisplayMedia p));
    [rewrite recorders_catchStart; apply keptBy_refl|].
  destruct (getDisplayMedia p) as [msg|d];
    [rewrite recorders_catchStart; apply keptBy_refl|].
  destruct (combinedStream p d) as [s cs].
  destruct (negb (isTypeSupported p vp9) && negb (isTypeSupported p webm));
    [rewrite recorders_catchStart; apply keptBy_refl|].
  unfold newMediaRecorder.
  destruct (getVideoTracks d);
    [rewrite recorders_catchStart; apply keptBy_app|].
  rewrite recorders_setSrcObject. simpl.
  eapply keptBy_trans; [apply keptBy_app|].
  unfold recorderStart. simpl.
  rewrite list_lookup_middle by reflexivity. simpl.
  eapply keptBy_insert; [apply list_lookup_middle; reflexivity|].
  apply (P_state {| rec_state := inactive; rec_stop_queued := false;
                    rec_stream := s;
                    rec_mimeType := if isTypeSupported p vp9 then vp9 else webm;
                    rec_chunks := []; rec_display := d; rec_closure := c |}).
Qed.

(** Every event but the delivery of data keeps each recorder. *)
Lemma keptBy_handle e m :
  (forall r data, e <> DataAvailable r data) ->
  keptBy P (recorders m) (recorders (handle e m)).
Proof.
  intros Hne. destruct e; simpl.
  - case_match; [|apply keptBy_refl].
    apply (keptBy_acquireAndRecord (st m) p (resetRecording m)).
  - case_match; [|apply keptBy_refl].
    unfold startRecording.
    eapply keptBy_trans; [|apply keptBy_acquireAndRecord].
    simpl. rewrite recorders_clearRecording. apply keptBy_refl.
  - case_match; [|apply keptBy_refl]. apply keptBy_stopRecording.
  - case_match; [|apply keptBy_refl].
    rewrite recorders_handleUpload. apply keptBy_refl.
  - case_match; [|apply keptBy_refl].
    rewrite recorders_clearRecording. apply keptBy_refl.
  - apply keptBy_refl.
  - destruct (timerRef m) as [c|]; [|apply keptBy_refl].
    unfold intervalTick. case_match; [|apply keptBy_refl].
    simpl. apply keptBy_stopRecording.
  - exfalso. eapply Hne. reflexivity.
  - unfold onstop, stopDelivered.
    destruct (recorders m !! r) as [R|] eqn:HR; [|rewrite HR; apply keptBy_refl].
    simpl. case_match; simpl; (eapply keptBy_insert; [exact HR|apply P_state]).
  - unfold onerror.
    destruct (recorders m !! r) as [R|] eqn:HR; [|apply keptBy_refl].
    apply (keptBy_stopRecording (rec_closure R)
             (setState (setError ("Recording error: " +:+ message)) m)).
  - unfold onended.
    destruct (recorders m !! r) as [R|] eqn:HR; [|apply keptBy_refl].
    case_match; [|apply keptBy_refl]. apply keptBy_stopRecording.
Qed.

End KeptBy.

Lemma sameData_refl R : sameData R R.
Proof. split; reflexivity. Qed.

Lemma sameData_trans R1 R2 R3 : sameData R1 R2 -> sameData R2 R3 -> sameData R1 R3.
Proof. intros (A & B) (C & D). split; congruence. Qed.

(** What one event does to the chunk buffer of recorder [r]: it appends
    the data the event delivers to it, and keeps the format. *)
Lemma chunks_step e m r R :
  recorders m !! r = Some R ->
  exists R', recorders (step e m) !! r = Some R' /\
             rec_chunks R' = rec_chunks R ++ deliveredBy r e /\
             rec_mimeType R' = rec_mimeType R.
Proof.
  intros HR. unfold step. rewrite recorders_commit.
  assert (Hother : (forall r' data, e <> DataAvailable r' data) ->
                   deliveredBy r e = [] ->
                   exists R', recorders (handle e m) !! r = Some R' /\
                     rec_chunks R' = rec_chunks R ++ deliveredBy r e /\
                     rec_mimeType R' = rec_mimeType R).
  { intros Hne Hnil.
    destruct (keptBy_handle sameData sameData_refl sameData_trans
                (fun R st q => conj eq_refl eq_refl) e m Hne r R HR)
      as (R' & HR' & Hc & Hm).
    exists R'. rewrite Hnil, app_nil_r. auto. }
  destruct e; try (apply Hother; [discriminate|reflexivity]).
  simpl. unfold ondataavailable.
  destruct (recorders m !! r0) as [R0|] eqn:HR0;
    [|exists R; rewrite HR; destruct data; try case_bool_decide; subst;
      rewrite ?app_nil_r; try congruence; auto].
  - destruct data as [d|]; [|exists R; rewrite app_nil_r; auto].
    destruct (decide (r0 = r)) as [->|Hne].
    + rewrite bool_decide_eq_true_2 by reflexivity. simpl.
      assert (R0 = R) by congruence. subst R0.
      destruct (0 <? blob_size d)%nat; [|exists R; rewrite app_nil_r; auto].
      simpl. eexists. split;
        [apply list_lookup_insert_eq; eapply lookup_lt_Some, HR|].
      auto.
    + rewrite bool_decide_eq_false_2 by exact Hne. simpl.
      exists R. rewrite app_nil_r. split; [|auto].
      destruct (0 <? blob_size d)%nat; [|exact HR].
      simpl. rewrite list_lookup_insert_ne by exact Hne. exact HR.
Qed.

Lemma chunks_run es m r R :
  recorders m !! r = Some R ->
  exists R', recorders (run es m) !! r = Some R' /\
             rec_chunks R' = rec_chunks R ++ delivered r es /\
             rec_mimeType R' = rec_mimeType R.
Proof.
  revert m R. induction es as [|e es IH]; intros m R HR; simpl.
  - exists R. unfold delivered. simpl. rewrite app_nil_r. auto.
  - destruct (chunks_step e m r R HR) as (R1 & HR1 & Hc1 & Hm1).
    destruct (IH _ _ HR1) as (R2 & HR2 & Hc2 & Hm2).
    exists R2. split; [exact HR2|]. split; [|congruence].
    rewrite Hc2, Hc1. unfold delivered. simpl. rewrite <- app_assoc.
    reflexivity.
Qed.

Lemma bytes_deliveredBy r e :
  List.concat (List.map blob_data (deliveredBy r e)) = bytesBy r e.
Proof.
  unfold deliveredBy, bytesBy. destruct e; try reflexivity.
  destruct data as [d|]; [|reflexivity].
  case_bool_decide; simpl; [|reflexivity].
  unfold blob_size. destruct (blob_data d) eqn:Hd; simpl; [reflexivity|].
  rewrite Hd, app_nil_r. reflexivity.
Qed.

Lemma bytes_delivered r es :
  List.concat (List.map blob_data (delivered r es)) =
  List.concat (List.map (bytesBy r) es).
Proof.
  unfold delivered. induction es as [|e es IH]; simpl; [reflexivity|].
  rewrite List.map_app, List.concat_app, IH, bytes_deliveredBy. reflexivity.
Qed.

(** X6. In a session begun by one of the start buttons, whatever events
    come between the start and the recorder's [stop] event, the artifact
    built by the [stop] handler is one blob whose bytes are, in order of
    arrival, all the data delivered to this recorder by [dataavailable]
    events (null and empty deliveries are dropped and carry no bytes). *)
Theorem artifact_is_concatenation
    (e : Event) (p : Platform) (m : Machine) (es : list Event) :
  begins e p ->
  isRecording (st m) = false ->
  isRecording (st (step e m)) = true ->
  let r := length (recorders m) in
  let mf := step (RecorderStopped r) (run es (step e m)) in
  exists blob,
    recordedChunks (st mf) = [blob] /\
    blob = newBlob (delivered r es) (if isTypeSupported p vp9 then vp9 else webm) /\
    blob_data blob = List.concat (List.map (bytesBy r) es).
Proof.
  intros Hb Hoff Hon r mf.
  destruct (begin_session e p m Hb Hoff Hon) as (d & Hcan & _ & Hrs & _).
  assert (HR : recorders (step e m) !! r = Some (startedRecorder (st m) p d))
    by (rewrite Hrs; apply list_lookup_middle; reflexivity).
  destruct (chunks_run es _ r _ HR) as (R' & HR' & Hc & Hm).
  simpl in Hc, Hm.
  exists (newBlob (rec_chunks R') (rec_mimeType R')).
  split; [apply recordedChunks_RecorderStopped, HR'|].
  rewrite Hc, Hm. split; [reflexivity|].
  simpl. apply bytes_delivered.
Qed.

Lemma artifact_is_concatenation_witness :
  let d1 := {| blob_data := [Byte.x1a; Byte.x45]; blob_type := "" |} in
  let d2 := {| blob_data := [Byte.xdf]; blob_type := "" |} in
  let es := [DataAvailable 0 (Some d1); Tick; DataAvailable 0 None;
             ClickStop; DataAvailable 0 (Some d2)] in
  let mf := step (RecorderStopped 0)
              (run es (step (ClickStart platformWithMic) initialMachine)) in
  exists blob,
    recordedChunks (st mf) = [blob] /\
    blob = newBlob (delivered 0 es) webm /\
    blob_data blob = List.concat (List.map (bytesBy 0) es).
Proof.
  apply (artifact_is_concatenation (ClickStart platformWithMic)
           platformWithMic initialMachine).
  - left. reflexivity.
  - reflexivity.
  - reflexivity.
Defined.

(** ** Starts that fail before anything is captured *)

(** X7. When the platform has no screen capture, [startRecording] reports
    that as the error and makes no capture request; when the screen-capture
    request is rejected, the error carries the rejection's message, and the
    microphone is never asked.  In both cases no encoder is created, the
    component's [isRecording] is unchanged, and the only other platform calls
    are the stops the [catch] block makes on the stream of its own render. *)
Theorem start_refused_reports_error (c : AppState) (p : Platform) (m : Machine) :
  let m' := startRecording c p m in
  let released := match stream c with
                  | Some s => List.map TrackStop (getTracks s)
                  | None => []
                  end in
  (hasGetDisplayMedia p = false ->
     error (st m') =
       "Failed to start recording: Screen recording is not supported in this browser. Please use Chrome or Edge." /\
     calls m' = calls m ++ released /\
     recorders m' = recorders m /\
     isRecording (st m') = isRecording (st m)) /\
  (forall message,
     hasGetDisplayMedia p = true ->
     getDisplayMedia p = inl message ->
     error (st m') = "Failed to start recording: " +:+ message /\
     calls m' = calls m ++ GetDisplayMedia :: released /\
     recorders m' = recorders m /\
     isRecording (st m') = isRecording (st m)).
Proof.
  intros m' released. subst m' released.
  unfold startRecording, acquireAndRecord. split.
  - intros ->. simpl.
    rewrite calls_catchStart, recorders_catchStart, isRecording_catchStart.
    unfold catchStart. destruct (stream c); simpl; auto.
  - intros message -> ->. simpl.
    rewrite calls_catchStart, recorders_catchStart, isRecording_catchStart.
    simpl. rewrite <- app_assoc.
    unfold catchStart. destruct (stream c); simpl; auto.
Qed.

Lemma start_refused_witness :
  let p := {| hasGetDisplayMedia := true;
              getDisplayMedia := inl "Permission denied";
              getUserMedia := inr micStream; newStreamId := 2;
              isTypeSupported := fun _ => true |} in
  let m' := startRecording initialState p initialMachine in
  error (st m') = "Failed to start recording: Permission denied" /\
  calls m' = [GetDisplayMedia] /\
  recorders m' = [] /\
  isRecording (st m') = false.
Proof.
  apply (proj2 (start_refused_reports_error initialState
                  {| hasGetDisplayMedia := true;
                     getDisplayMedia := inl "Permission denied";
                     getUserMedia := inr micStream; newStreamId := 2;
                     isTypeSupported := fun _ => true |} initialMachine)
           "Permission denied"); reflexivity.
Defined.

(** ** Manual stop *)

(** X8. In a session begun by one of the start buttons, pressing Stop after
    [k] seconds ([k] below 180) leaves the component not recording with no
    stream held and the interval cleared, the encoder inactive with its
    [stop] event queued, and the counter at [k]: it is not reset, and any
    number of later ticks leaves the whole machine as it is. *)
Theorem manual_stop_freezes_timer
    (e : Event) (p : Platform) (m : Machine) (k n : nat) :
  begins e p ->
  isRecording (st m) = false ->
  isRecording (st (step e m)) = true ->
  k < 180 ->
  let r := length (recorders m) in
  let m2 := step ClickStop (run (replicate k Tick) (step e m)) in
  recordingTime (st m2) = Z.of_nat k /\
  isRecording (st m2) = false /\
  stream (st m2) = None /\
  timerRef m2 = None /\
  In (RecorderStop r) (calls m2) /\
  (exists R, recorders m2 !! r = Some R /\ rec_state R = inactive /\
             rec_stop_queued R = true) /\
  run (replicate n Tick) m2 = m2.
Proof.
  intros Hb Hoff Hon Hk r m2.
  destruct (begin_session e p m Hb Hoff Hon) as (d & Hcan & Hst & Hrs & Ht).
  destruct (session_timeout e p m Hb Hoff Hon) as (Hticks & _).
  set (m1 := step e m) in *. fold r in Hst. cbv zeta in Hst.
  set (s := (combinedStream p d).1) in *.
  set (mk := setState (setRecordingTime (Z.of_nat k)) m1).
  assert (Hm2 : m2 = commit (st mk) (stopRecording (st mk) mk)).
  { subst m2. rewrite (Hticks k Hk). fold mk. unfold step. simpl.
    replace (isRecording (st m1)) with true by (rewrite Hst; reflexivity).
    reflexivity. }
  assert (HR : recorders mk !! r = Some (startedRecorder (st m) p d))
    by (subst mk; simpl; rewrite Hrs; apply list_lookup_middle; reflexivity).
  assert (Hmr : mediaRecorder (st mk) = Some r)
    by (subst mk; simpl; rewrite Hst; reflexivity).
  assert (Hs : stream (st mk) = Some s)
    by (subst mk; simpl; rewrite Hst; reflexivity).
  assert (Hrec : isRecording (st mk) = true)
    by (subst mk; simpl; rewrite Hst; reflexivity).
  destruct (stopRecording_active (st mk) mk r _ s Hmr HR eq_refl Hs)
    as (Hst' & Hcalls' & Ht' & R' & HR' & Hin & Hq & _).
  assert (Htimer : timerRef m2 = None).
  { rewrite Hm2, timerRef_commit, Hrec, Hst'. reflexivity. }
  assert (Hoff2 : isRecording (st m2) = false)
    by (rewrite Hm2, st_commit, Hst'; reflexivity).
  split; [rewrite Hm2, st_commit, Hst'; reflexivity|].
  split; [exact Hoff2|].
  split; [rewrite Hm2, st_commit, Hst'; reflexivity|].
  split; [exact Htimer|].
  split.
  { rewrite Hm2, calls_commit, Hcalls'.
    apply in_or_app. left. apply in_or_app. right. left. reflexivity. }
  split.
  { exists R'. rewrite Hm2, recorders_commit. auto. }
  induction n as [|n IH]; [reflexivity|].
  simpl. replace (step Tick m2) with m2; [exact IH|].
  unfold step. simpl. rewrite Htimer. symmetry. apply commit_same; reflexivity.
Qed.

Lemma manual_stop_freezes_timer_witness :
  let m2 := step ClickStop
              (run (replicate 7 Tick)
                 (step (ClickStart platformWithMic) initialMachine)) in
  recordingTime (st m2) = 7%Z /\
  isRecording (st m2) = false /\
  stream (st m2) = None /\
  timerRef m2 = None /\
  In (RecorderStop 0) (calls m2) /\
  (exists R, recorders m2 !! 0 = Some R /\ rec_state R = inactive /\
             rec_stop_queued R = true) /\
  run (replicate 5 Tick) m2 = m2.
Proof.
  apply (manual_stop_freezes_timer (ClickStart platformWithMic)
           platformWithMic initialMachine 7 5).
  - left. reflexivity.
  - reflexivity.
  - reflexivity.
  - lia.
Defined.

(** ** Encoder errors *)

Lemma length_kept l l' : kept l l' -> length l <= length l'.
Proof.
  intros Hk. destruct l as [|R0 l0] eqn:Hl; [simpl; lia|]. rewrite <- Hl in *.
  destruct (decide (length l <= length l')) as [|Hgt]; [assumption|].
  assert (Hlast : is_Some (l !! (length l - 1)))
    by (apply lookup_lt_is_Some; subst l; simpl; lia).
  destruct Hlast as (R & HR). destruct (Hk _ _ HR) as (R' & HR' & _).
  apply lookup_lt_Some in HR'. lia.
Qed.

(** Where [mediaRecorder] can point after a start. *)
Lemma mediaRecorder_acquireAndRecord c p m :
  mediaRecorder (st (acquireAndRecord c p m)) = mediaRecorder (st m) \/
  mediaRecorder (st (acquireAndRecord c p m)) = Some (length (recorders m)) /\
  length (recorders m) < length (recorders (acquireAndRecord c p m)).
Proof.
  unfold acquireAndRecord.
  assert (Hcatch : forall msg m0, mediaRecorder (st m0) = mediaRecorder (st m) ->
            mediaRecorder (st (catchStart c msg m0)) = mediaRecorder (st m))
    by (intros msg m0 H; unfold catchStart; destruct (stream c); exact H).
  destruct (negb (hasGetDisplayMedia p)); [left; apply Hcatch; reflexivity|].
  destruct (getDisplayMedia p) as [msg|d]; [left; apply Hcatch; reflexivity|].
  destruct (combinedStream p d) as [s cs].
  destruct (negb (isTypeSupported p vp9) && negb (isTypeSupported p webm));
    [left; apply Hcatch; reflexivity|].
  unfold newMediaRecorder.
  destruct (getVideoTracks d); [left; apply Hcatch; reflexivity|].
  right. rewrite st_setSrcObject, recorders_setSrcObject.
  unfold recorderStart. simpl.
  rewrite list_lookup_middle by reflexivity. simpl.
  split; [reflexivity|]. rewrite length_insert, length_app. simpl. lia.
Qed.

Lemma mediaRecorder_stopRecording c m :
  mediaRecorder (st (stopRecording c m)) = mediaRecorder (st m).
Proof. rewrite st_stopRecording. destruct (stream c); reflexivity. Qed.

Lemma mediaRecorder_handle e m :
  mediaRecorder (st (handle e m)) = mediaRecorder (st m) \/
  mediaRecorder (st (handle e m)) = Some (length (recorders m)) /\
  length (recorders m) < length (recorders (handle e m)).
Proof.
  destruct e; simpl; try (left; reflexivity).
  - case_match; [|left; reflexivity].
    apply (mediaRecorder_acquireAndRecord (st m) p (resetRecording m)).
  - case_match; [|left; reflexivity].
    pose proof (mediaRecorder_acquireAndRecord (st m) p
                  (resetRecording (clearRecording m))) as H0.
    unfold startRecording. simpl in H0.
    rewrite recorders_clearRecording in H0.
    unfold clearRecording in H0 at 2. rewrite st_setSrcObject in H0.
    exact H0.
  - case_match; [|left; reflexivity]. left. apply mediaRecorder_stopRecording.
  - left. case_match; [|reflexivity]. unfold handleUpload.
    repeat case_match; reflexivity.
  - left. case_match; [|reflexivity]. unfold clearRecording.
    rewrite st_setSrcObject. reflexivity.
  - left. destruct (timerRef m); [|reflexivity]. unfold intervalTick.
    case_match; [|reflexivity]. simpl. apply mediaRecorder_stopRecording.
  - left. unfold ondataavailable. repeat case_match; reflexivity.
  - left. unfold onstop, stopDelivered.
    destruct (recorders m !! r) as [R|] eqn:HR; simpl; [|rewrite HR; reflexivity].
    case_match; reflexivity.
  - left. unfold onerror. case_match; [|reflexivity].
    rewrite mediaRecorder_stopRecording. reflexivity.
  - left. unfold onended. repeat case_match; try reflexivity.
    apply mediaRecorder_stopRecording.
Qed.

(** [mediaRecorder] always refers to a recorder that exists. *)
Lemma mediaRecorder_bound_run es :
  forall r, mediaRecorder (st (run es initialMachine)) = Some r ->
            r < length (recorders (run es initialMachine)).
Proof.
  assert (Hgen : forall es m,
            (forall r, mediaRecorder (st m) = Some r -> r < length (recorders m)) ->
            forall r, mediaRecorder (st (run es m)) = Some r ->
                      r < length (recorders (run es m))).
  { clear es. induction es as [|e es IH]; intros m Hinv; [exact Hinv|].
    simpl. apply IH. intros r. unfold step.
    rewrite st_commit, recorders_commit.
    pose proof (length_kept _ _ (kept_handle e m)) as Hlen.
    destruct (mediaRecorder_handle e m) as [-> | (-> & Hlt)].
    - intros Hr. specialize (Hinv r Hr). lia.
    - intros [= <-]. exact Hlt. }
  apply Hgen. intros r. discriminate.
Qed.

Lemma recorders_stopRecording_other c m r :
  mediaRecorder c <> Some r ->
  recorders (stopRecording c m) !! r = recorders m !! r.
Proof.
  intros Hne. unfold stopRecording. rewrite recorders_setSrcObject.
  assert (Hk : forall m1,
     recorders match stream c with
               | Some s => setState (setStream None)
                             (stopTracks s (setState (setIsRecording false) m1))
               | None => setState (setIsRecording false) m1
               end = recorders m1)
    by (intros m1; destruct (stream c); reflexivity).
  rewrite Hk.
  destruct (mediaRecorder c) as [r'|]; [|reflexivity].
  destruct (recorders m !! r') as [R|]; [|reflexivity].
  case_bool_decide; [|reflexivity].
  simpl. apply list_lookup_insert_ne. congruence.
Qed.

(** ** Upload, clear, record again *)

(** X10. In any state the component can reach in which the upload button
    is enabled, an upload that the server accepts posts the one recorded
    blob, exactly once, shows the status "success", advances [refreshKey] by
    one and keeps the artifact (chunk, URL, blob store); when the timeout set
    by [handleUpload] fires, the status is empty again. *)
Theorem upload_success (es : list Event) :
  let m := run es initialMachine in
  hasUrl (st m) = true ->
  isRecording (st m) = false ->
  uploadStatus (st m) <> "uploading" ->
  let m1 := step (ClickUpload resolved) m in
  exists blob,
    recordedChunks (st m) = [blob] /\
    calls m1 = calls m ++ [AxiosPost blob] /\
    uploadStatus (st m1) = "success" /\
    refreshKey (st m1) = S (refreshKey (st m)) /\
    keepsArtifact m m1 /\
    uploadStatus (st (step UploadStatusTimeout m1)) = "".
Proof.
  intros m Hurl Hrec Hup m1.
  assert (Hart : artifactOk m) by (apply artifactOk_run; exact I).
  unfold artifactOk, hasUrl in *.
  destruct (recordingUrl (st m)) as [u|] eqn:Hu; [|discriminate].
  destruct (recordedChunks (st m)) as [|blob [|b' bs]] eqn:Hc;
    try contradiction.
  assert (Hm1 : m1 = handleUpload (st m) resolved m).
  { apply step_ClickUpload; [unfold hasUrl; rewrite Hu; reflexivity|
                             assumption|assumption]. }
  exists blob. rewrite Hm1. unfold handleUpload. rewrite Hc.
  split; [reflexivity|]. split; [reflexivity|]. split; [reflexivity|].
  split; [reflexivity|]. split; [repeat split|].
  unfold step. rewrite st_commit. reflexivity.
Qed.

Lemma upload_success_witness :
  let m := run [ClickStart platformWithMic; ClickStop; RecorderStopped 0]
             initialMachine in
  let m1 := step (ClickUpload resolved) m in
  exists blob,
    recordedChunks (st m) = [blob] /\
    calls m1 = calls m ++ [AxiosPost blob] /\
    uploadStatus (st m1) = "success" /\
    refreshKey (st m1) = S (refreshKey (st m)) /\
    keepsArtifact m m1 /\
    uploadStatus (st (step UploadStatusTimeout m1)) = "".
Proof.
  apply (upload_success
           [ClickStart platformWithMic; ClickStop; RecorderStopped 0]).
  - reflexivity.
  - reflexivity.
  - vm_compute. discriminate.
Defined.

Lemma step_ClickClear m :
  hasUrl (st m) = true ->
  isRecording (st m) = false ->
  step ClickClear m = clearRecording m.
Proof.
  intros Hurl Hrec. unfold step. simpl. rewrite Hurl, Hrec. simpl.
  apply commit_same; unfold clearRecording; rewrite st_setSrcObject;
    reflexivity.
Qed.

(** X11. Clear, when its button is shown, discards the artifact and the
    messages and puts the counter back to 0 without any platform call: the
    blob stays in the blob store (its URL is never revoked) and the recorders
    are untouched.  Afterwards the component shows the start button again,
    and the upload and clear buttons are gone: their events change
    nothing. *)
Theorem clear_returns_to_idle (m : Machine) (res : AxiosResult) :
  hasUrl (st m) = true ->
  isRecording (st m) = false ->
  let m1 := step ClickClear m in
  recordingUrl (st m1) = None /\
  recordedChunks (st m1) = [] /\
  recordingTime (st m1) = 0%Z /\
  error (st m1) = "" /\
  uploadStatus (st m1) = "" /\
  calls m1 = calls m /\
  objectUrls m1 = objectUrls m /\
  recorders m1 = recorders m /\
  step ClickClear m1 = m1 /\
  step (ClickUpload res) m1 = m1 /\
  forall p, handle (ClickStart p) m1 = startRecording (st m1) p m1.
Proof.
  intros Hurl Hrec m1.
  assert (Hm1 : m1 = clearRecording m) by (apply step_ClickClear; assumption).
  assert (Hst : st m1 =
                setRecordingTime 0
                  (setError ""
                     (setUploadStatus ""
                        (setRecordedChunks [] (setRecordingUrl None (st m))))))
    by (rewrite Hm1; unfold clearRecording; rewrite st_setSrcObject; reflexivity).
  assert (Hnourl : hasUrl (st m1) = false) by (rewrite Hst; reflexivity).
  assert (Hrec1 : isRecording (st m1) = false) by (rewrite Hst; exact Hrec).
  do 5 (split; [rewrite Hst; reflexivity|]).
  split; [rewrite Hm1; unfold clearRecording; rewrite calls_setSrcObject;
          reflexivity|].
  split; [rewrite Hm1; unfold clearRecording; rewrite objectUrls_setSrcObject;
          reflexivity|].
  split; [rewrite Hm1; apply recorders_clearRecording|].
  split; [unfold step; simpl; rewrite Hnourl; simpl;
          apply commit_same; reflexivity|].
  split; [unfold step; simpl; rewrite Hnourl; simpl;
          apply commit_same; reflexivity|].
  intros p. simpl. rewrite Hnourl, Hrec1. reflexivity.
Qed.

Lemma clear_returns_to_idle_witness :
  let m := run [ClickStart platformWithMic; ClickStop; RecorderStopped 0]
             initialMachine in
  let m1 := step ClickClear m in
  recordingUrl (st m1) = None /\
  recordedChunks (st m1) = [] /\
  recordingTime (st m1) = 0%Z /\
  error (st m1) = "" /\
  uploadStatus (st m1) = "" /\
  calls m1 = calls m /\
  objectUrls m1 = objectUrls m /\
  recorders m1 = recorders m /\
  step ClickClear m1 = m1 /\
  step (ClickUpload resolved) m1 = m1 /\
  forall p, handle (ClickStart p) m1 = startRecording (st m1) p m1.
Proof.
  apply (clear_returns_to_idle
           (run [ClickStart platformWithMic; ClickStop; RecorderStopped 0]
              initialMachine) resolved); reflexivity.
Defined.

Lemma videoRef_catchStart c msg m : videoRef (catchStart c msg m) = videoRef m.
Proof. unfold catchStart. destruct (stream c); reflexivity. Qed.

(** [startRecording] reads its closure only through [stream]; the rest of
    the closure is what the new recorder's handlers capture. *)
Lemma acquireAndRecord_view c1 c2 p m :
  stream c1 = stream c2 ->
  sameView (acquireAndRecord c1 p m) (acquireAndRecord c2 p m).
Proof.
  intros Hs.
  assert (Hcatch : forall msg m1 m2,
            st m1 = st m2 -> calls m1 = calls m2 ->
            objectUrls m1 = objectUrls m2 -> timerRef m1 = timerRef m2 ->
            videoRef m1 = videoRef m2 ->
            length (recorders m1) = length (recorders m2) ->
            sameView (catchStart c1 msg m1) (catchStart c2 msg m2)).
  { intros msg m1 m2 H1 H2 H3 H4 H5 H6. unfold sameView, catchStart.
    rewrite Hs. destruct (stream c2); simpl; rewrite H1, H2, H3, H4, H5, H6;
      repeat split. }
  unfold acquireAndRecord.
  destruct (negb (hasGetDisplayMedia p)); [apply Hcatch; reflexivity|].
  destruct (getDisplayMedia p) as [msg|d]; [apply Hcatch; reflexivity|].
  destruct (combinedStream p d) as [s cs].
  destruct (negb (isTypeSupported p vp9) && negb (isTypeSupported p webm));
    [apply Hcatch; reflexivity|].
  unfold newMediaRecorder.
  destruct (getVideoTracks d);
    [apply Hcatch; simpl; rewrite ?length_app; reflexivity|].
  unfold sameView, recorderStart. simpl.
  rewrite !list_lookup_middle by reflexivity. simpl.
  unfold setSrcObject. simpl.
  destruct (videoRef m); simpl; rewrite !length_insert, !length_app;
    repeat split.
Qed.

Lemma commit_view prev1 prev2 m1 m2 :
  stream prev1 = stream prev2 ->
  isRecording prev1 = isRecording prev2 ->
  sameView m1 m2 ->
  sameView (commit prev1 m1) (commit prev2 m2).
Proof.
  intros Hs Hr (H1 & H2 & H3 & H4 & H5 & H6). unfold sameView.
  rewrite !st_commit, !timerRef_commit, !calls_commit, !recorders_commit.
  rewrite Hs, Hr, H1, H2, H4.
  assert (Hu : objectUrls (commit prev1 m1) = objectUrls (commit prev2 m2)).
  { destruct (keepsArtifact_commit prev1 m1) as (_ & _ & ->).
    destruct (keepsArtifact_commit prev2 m2) as (_ & _ & ->). exact H3. }
  assert (Hv : videoRef (commit prev1 m1) = videoRef (commit prev2 m2)).
  { unfold commit, streamCleanup, timerEffect.
    repeat case_match; simpl; exact H5. }
  repeat split; assumption.
Qed.

(** X12. "Record another" is Clear followed by Start: from a state that
    shows the result of a recording, the one button leaves the component's
    state, the log of platform calls, the blob store, the interval, the
    preview element and the number of recorders exactly as the two buttons in
    sequence do. *)
Theorem record_another_is_clear_then_start (p : Platform) (m : Machine) :
  hasUrl (st m) = true ->
  isRecording (st m) = false ->
  sameView (step (ClickRecordAnother p) m)
           (step (ClickStart p) (step ClickClear m)).
Proof.
  intros Hurl Hrec.
  rewrite (step_ClickClear m Hurl Hrec).
  assert (Hst : st (clearRecording m) =
                setRecordingTime 0
                  (setError ""
                     (setUploadStatus ""
                        (setRecordedChunks [] (setRecordingUrl None (st m))))))
    by (unfold clearRecording; rewrite st_setSrcObject; reflexivity).
  unfold step. simpl. rewrite Hurl, Hrec. simpl.
  replace (negb (isRecording (st (clearRecording m))) &&
           negb (hasUrl (st (clearRecording m)))) with true
    by (rewrite Hst; simpl; rewrite Hrec; reflexivity).
  apply commit_view; [rewrite Hst; reflexivity|rewrite Hst; reflexivity|].
  unfold startRecording.
  apply acquireAndRecord_view. rewrite Hst. reflexivity.
Qed.

Lemma record_another_witness :
  let m := run [ClickStart platformWithMic; ClickStop; RecorderStopped 0]
             initialMachine in
  sameView (step (ClickRecordAnother platformMicDenied) m)
           (step (ClickStart platformMicDenied) (step ClickClear m)).
Proof.
  apply (record_another_is_clear_then_start platformMicDenied
           (run [ClickStart platformWithMic; ClickStop; RecorderStopped 0]
              initialMachine)); reflexivity.
Defined.

(** * Further properties of the recordings service *)

Import Server.

(** ** Requests that are turned down *)

(** X13. A [POST /api/recordings] that does not answer 201 adds no row and
    does not advance the id counter.  Without a file it answers 400 and
    changes nothing at all; when the database insert fails it answers 500
    after multer has stored the file, which stays in the uploads directory
    although no row was added for it. *)
Theorem post_failure_adds_no_row
    (file : option (list Byte.byte)) (o : Outside) (s : State) :
  let resp := (postRecordings file o s).1 in
  let s' := (postRecordings file o s).2 in
  ((forall message i, resp <> Created message i) ->
     recordings s' = recordings s /\ auto_increment s' = auto_increment s) /\
  (file = None -> resp = Json 400 "No file uploaded." /\ s' = s) /\
  (forall body,
     file = Some body ->
     (N.of_nat (length body) <= fileSize)%N ->
     db_ok o = false ->
     resp = Json 500 "Failed to save recording." /\
     uploads s' !! storageFilename "video" o = Some body /\
     recordings s' = recordings s).
Proof.
  intros resp s'. subst resp s'. unfold postRecordings.
  split; [|split].
  - intros Hne. destruct file as [body|]; [|auto].
    destruct (fileSize <? N.of_nat (length body))%N; [auto|].
    destruct (db_ok o); simpl; [|auto].
    exfalso. eapply Hne. reflexivity.
  - intros ->. auto.
  - intros body -> Hsize Hdb.
    destruct (N.ltb_spec fileSize (N.of_nat (length body))); [lia|].
    rewrite Hdb. simpl. rewrite lookup_insert_eq. auto.
Qed.

Lemma post_failure_witness :
  let o := {| now := 1700000000000%N; random := 7%N;
              current_timestamp := 1700000000%N; db_ok := false |} in
  let body := [Byte.x1a; Byte.x45] in
  (postRecordings (Some body) o seeded).1 = Json 500 "Failed to save recording." /\
  uploads (postRecordings (Some body) o seeded).2
    !! storageFilename "video" o = Some body /\
  recordings (postRecordings (Some body) o seeded).2 = recordings seeded.
Proof.
  apply (proj2 (proj2 (post_failure_adds_no_row
                         (Some [Byte.x1a; Byte.x45])
                         {| now := 1700000000000%N; random := 7%N;
                            current_timestamp := 1700000000%N; db_ok := false |}
                         seeded)) [Byte.x1a; Byte.x45]).
  - reflexivity.
  - vm_compute. discriminate.
  - reflexivity.
Defined.

Lemma selectById_absent i rows :
  Forall (fun r => id r <> i) rows ->
  List.filter (fun r => (id r =? i)%nat) rows = [].
Proof.
  induction 1 as [|r rows Hr _ IH]; simpl; [reflexivity|].
  destruct (Nat.eqb_spec (id r) i); [contradiction|exact IH].
Qed.

(** X14. [GET /api/recordings/:id] while the database answers: an id that
    no row carries gets 404 "Recording not found."; an id whose first row
    names a file that is not in the uploads directory gets 404
    "File not found."; and whenever the answer is a stream, it is the content
    of the file named by the first row with that id, served as video/webm. *)
Theorem get_recording_not_found (i : nat) (o : Outside) (s : State) :
  db_ok o = true ->
  (Forall (fun r => id r <> i) (recordings s) ->
     getRecording i o s = Json 404 "Recording not found.") /\
  (forall row rest,
     selectById i s = row :: rest ->
     uploads s !! filename row = None ->
     getRecording i o s = Json 404 "File not found.") /\
  (forall contentType body,
     getRecording i o s = Stream contentType body ->
     contentType = "video/webm" /\
     exists row rest,
       selectById i s = row :: rest /\ In row (recordings s) /\ id row = i /\
       uploads s !! filename row = Some body).
Proof.
  intros Hdb. unfold getRecording. rewrite Hdb. split; [|split].
  - intros Habs. unfold selectById. rewrite (selectById_absent _ _ Habs).
    reflexivity.
  - intros row rest -> ->. reflexivity.
  - intros contentType body.
    destruct (selectById i s) as [|row rest] eqn:Hsel; [discriminate|].
    destruct (uploads s !! filename row) as [b|] eqn:Hfile; [|discriminate].
    intros [= <- <-]. split; [reflexivity|].
    exists row, rest. split; [reflexivity|].
    assert (Hin : In row (selectById i s)) by (rewrite Hsel; left; reflexivity).
    unfold selectById in Hin. apply List.filter_In in Hin as [Hin Hid].
    apply Nat.eqb_eq in Hid. auto.
Qed.

Lemma get_recording_not_found_witness :
  let o := {| now := 0%N; random := 0%N; current_timestamp := 0%N;
              db_ok := true |} in
  getRecording 9 o seeded = Json 404 "Recording not found." /\
  getRecording 2 o seeded = Json 404 "File not found.".
Proof.
  pose proof (get_recording_not_found 9
                {| now := 0%N; random := 0%N; current_timestamp := 0%N;
                   db_ok := true |} seeded eq_refl) as (H9 & _ & _).
  pose proof (get_recording_not_found 2
                {| now := 0%N; random := 0%N; current_timestamp := 0%N;
                   db_ok := true |} seeded eq_refl) as (_ & H2 & _).
  split.
  - apply H9. repeat constructor; discriminate.
  - eapply H2; reflexivity.
Defined.

(** ** The list *)

Lemma newer_first_trans : Transitive newer_first.
Proof. unfold newer_first. intros a b c Hab Hbc. lia. Qed.

Lemma newer_first_total : Total newer_first.
Proof. unfold newer_first. intros a b. lia. Qed.

Lemma selectAll_sorted s : StronglySorted newer_first (selectAll s).
Proof.
  unfold selectAll.
  apply (@StronglySorted_merge_sort _ newer_first _ newer_first_trans
           newer_first_total).
Qed.

(** X15. [GET /api/recordings] while the database answers lists every row
    of the table exactly once (the answer is a permutation of the table), and
    no row comes before a row created later. *)
Theorem list_newest_first (o : Outside) (s : State) :
  db_ok o = true ->
  exists rows,
    getRecordings o s = Rows rows /\
    rows ≡ₚ recordings s /\
    StronglySorted newer_first rows.
Proof.
  intros Hdb. unfold getRecordings. rewrite Hdb.
  exists (selectAll s). split; [reflexivity|].
  split; [apply merge_sort_Permutation|apply selectAll_sorted].
Qed.

Lemma list_newest_first_witness :
  exists rows,
    getRecordings {| now := 0%N; random := 0%N; current_timestamp := 0%N;
                     db_ok := true |} seeded = Rows rows /\
    rows ≡ₚ recordings seeded /\
    StronglySorted newer_first rows.
Proof.
  apply (list_newest_first
           {| now := 0%N; random := 0%N; current_timestamp := 0%N;
              db_ok := true |} seeded).
  reflexivity.
Defined.

(** X16. An upload answered 201 whose timestamp is later than that of
    every row already in the table is the first entry of the next list, with
    the returned id, the size of the uploaded body and the file name multer
    chose. *)
Theorem newest_upload_listed_first
    (s s' : State) (o o' : Outside) (body : list Byte.byte)
    (message : string) (recordingId : nat) :
  Forall (fun r => (created_at r < current_timestamp o)%N) (recordings s) ->
  postRecordings (Some body) o s = (Created message recordingId, s') ->
  db_ok o' = true ->
  exists row rest,
    getRecordings o' s' = Rows (row :: rest) /\
    id row = recordingId /\
    size row = N.of_nat (length body) /\
    filename row = storageFilename "video" o.
Proof.
  intros Hold Hpost Hdb. unfold postRecordings in Hpost.
  destruct (fileSize <? N.of_nat (length body))%N; [discriminate|].
  destruct (db_ok o); simpl in Hpost; [|discriminate].
  injection Hpost as _ <- <-.
  unfold getRecordings. rewrite Hdb.
  match goal with
  | |- context [selectAll ?st] => set (s1 := st)
  end.
  pose proof (selectAll_sorted s1) as Hsorted.
  pose proof (merge_sort_Permutation newer_first (recordings s1)) as Hperm.
  fold (selectAll s1) in Hperm.
  set (new := {| id := auto_increment s;
                 filename := storageFilename "video" o;
                 size := N.of_nat (length body);
                 created_at := current_timestamp o;
                 updated_at := current_timestamp o |}).
  assert (Hrows : recordings s1 = recordings s ++ [new]) by reflexivity.
  destruct (selectAll s1) as [|row rest] eqn:Hsel.
  { apply Permutation_length in Hperm. rewrite Hrows, length_app in Hperm.
    simpl in Hperm. lia. }
  exists row, rest. split; [reflexivity|].
  assert (Hrow : row = new).
  { assert (Hin_new : new ∈ row :: rest)
      by (rewrite Hperm, Hrows; apply elem_of_app; right; apply list_elem_of_singleton;
          reflexivity).
    assert (Hin_row : row ∈ recordings s ++ [new])
      by (rewrite <- Hrows, <- Hperm; left).
    apply elem_of_cons in Hin_new as [Heq|Hrest]; [congruence|].
    apply elem_of_app in Hin_row as [Hold_row|Hnew_row].
    - exfalso. apply StronglySorted_inv in Hsorted as [_ Hall].
      rewrite Forall_forall in Hall. specialize (Hall new Hrest).
      rewrite Forall_forall in Hold. specialize (Hold row Hold_row).
      unfold newer_first in Hall. simpl in Hall. lia.
    - apply list_elem_of_singleton in Hnew_row. exact Hnew_row. }
  rewrite Hrow. repeat split.
Qed.

Lemma newest_upload_listed_first_witness :
  let o := {| now := 1700000000000%N; random := 123456789%N;
              current_timestamp := 1700000000%N; db_ok := true |} in
  let body := [Byte.x1a; Byte.x45; Byte.xdf; Byte.xa3] in
  exists row rest,
    getRecordings o (postRecordings (Some body) o seeded).2 = Rows (row :: rest) /\
    id row = 4 /\
    size row = N.of_nat (length body) /\
    filename row = storageFilename "video" o.
Proof.
  apply (newest_upload_listed_first seeded _
           {| now := 1700000000000%N; random := 123456789%N;
              current_timestamp := 1700000000%N; db_ok := true |}
           {| now := 1700000000000%N; random := 123456789%N;
              current_timestamp := 1700000000%N; db_ok := true |}
           [Byte.x1a; Byte.x45; Byte.xdf; Byte.xa3]
           "File uploaded successfully!" 4).
  - repeat constructor.
  - reflexivity.
  - reflexivity.
Defined.

(** ** Ids and stored files over many uploads *)

(** X17. With every id in the table below the counter, an upload answered
    201 returns an id larger than every id in the table, leaves the counter
    just above it, keeps the ids of the table distinct, and the next upload
    answered 201 returns a still larger id. *)
Theorem post_ids_fresh
    (s s' : State) (o : Outside) (body : list Byte.byte)
    (message : string) (recordingId : nat) :
  ids_below_counter s ->
  postRecordings (Some body) o s = (Created message recordingId, s') ->
  Forall (fun r => id r < recordingId) (recordings s) /\
  auto_increment s' = S recordingId /\
  ids_below_counter s' /\
  (NoDup (List.map id (recordings s)) -> NoDup (List.map id (recordings s'))) /\
  forall file2 o2 message2 recordingId2 s2,
    postRecordings file2 o2 s' = (Created message2 recordingId2, s2) ->
    recordingId < recordingId2.
Proof.
  intros Hwf Hpost.
  pose proof (ids_below_counter_post (Some body) o s Hwf) as Hwf'.
  rewrite Hpost in Hwf'. simpl in Hwf'.
  unfold postRecordings in Hpost.
  destruct (fileSize <? N.of_nat (length body))%N; [discriminate|].
  destruct (db_ok o); simpl in Hpost; [|discriminate].
  injection Hpost as _ <- <-. simpl.
  split; [exact Hwf|]. split; [reflexivity|]. split; [exact Hwf'|].
  split.
  - intros Hnd. rewrite List.map_app. simpl.
    apply NoDup_app. split; [exact Hnd|]. split; [|apply NoDup_singleton].
    intros i Hi Hi'. apply list_elem_of_singleton in Hi'. subst i.
    apply list_elem_of_In, in_map_iff in Hi as (r & Hr & Hin).
    unfold ids_below_counter in Hwf. rewrite List.Forall_forall in Hwf.
    specialize (Hwf r Hin). lia.
  - intros file2 o2 message2 recordingId2 s2 Hpost2.
    unfold postRecordings in Hpost2.
    destruct file2 as [body2|]; [|discriminate].
    destruct (fileSize <? N.of_nat (length body2))%N; [discriminate|].
    destruct (db_ok o2); simpl in Hpost2; [|discriminate].
    injection Hpost2 as _ <- _. lia.
Qed.

Lemma post_ids_fresh_witness :
  let o := {| now := 1700000000000%N; random := 123456789%N;
              current_timestamp := 1700000000%N; db_ok := true |} in
  let body := [Byte.x1a; Byte.x45] in
  let s' := (postRecordings (Some body) o seeded).2 in
  Forall (fun r => id r < 4) (recordings seeded) /\
  auto_increment s' = 5 /\
  ids_below_counter s' /\
  (NoDup (List.map id (recordings seeded)) ->
   NoDup (List.map id (recordings s'))) /\
  forall file2 o2 message2 recordingId2 s2,
    postRecordings file2 o2 s' = (Created message2 recordingId2, s2) ->
    4 < recordingId2.
Proof.
  apply (post_ids_fresh seeded _
           {| now := 1700000000000%N; random := 123456789%N;
              current_timestamp := 1700000000%N; db_ok := true |}
           [Byte.x1a; Byte.x45] "File uploaded successfully!" 4).
  - repeat constructor.
  - reflexivity.
Defined.

(** What keeps a recording retrievable: one row with its id, whose file
    holds the body, and a counter above the id. *)
Lemma retrievable_post i row body req s :
  selectById i s = [row] ->
  uploads s !! filename row = Some body ->
  i < auto_increment s ->
  storedAs req <> Some (filename row) ->
  let s' := (postRecordings req.1 req.2 s).2 in
  selectById i s' = [row] /\
  uploads s' !! filename row = Some body /\
  i < auto_increment s'.
Proof.
  intros Hsel Hfile Hlt Hname. destruct req as [file o]. simpl.
  unfold storedAs in Hname. simpl in Hname. unfold postRecordings.
  destruct file as [body2|]; [|auto].
  destruct (fileSize <? N.of_nat (length body2))%N; [auto|].
  assert (Hne : storageFilename "video" o <> filename row) by congruence.
  destruct (db_ok o); simpl.
  - unfold selectById in *. simpl. rewrite List.filter_app, Hsel. simpl.
    destruct (Nat.eqb_spec (auto_increment s) i); [lia|].
    rewrite lookup_insert_ne by exact Hne. auto.
  - unfold selectById in *. simpl.
    rewrite lookup_insert_ne by exact Hne. auto.
Qed.

(** X18. A recording uploaded with answer 201 stays retrievable through
    any number of later upload requests, whatever their outcome, as long as
    none of them is stored under the same generated file name: the id still
    streams exactly the uploaded bytes. *)
Theorem round_trip_survives_uploads
    (s s' : State) (o o' : Outside) (body : list Byte.byte)
    (message : string) (recordingId : nat)
    (later : list (option (list Byte.byte) * Outside)) :
  ids_below_counter s ->
  postRecordings (Some body) o s = (Created message recordingId, s') ->
  Forall (fun req => storedAs req <> Some (storageFilename "video" o)) later ->
  db_ok o' = true ->
  getRecording recordingId o' (postAll later s') = Stream "video/webm" body.
Proof.
  intros Hwf Hpost Hlater Hdb. unfold postRecordings in Hpost.
  destruct (fileSize <? N.of_nat (length body))%N; [discriminate|].
  destruct (db_ok o); simpl in Hpost; [|discriminate].
  injection Hpost as _ <- <-.
  set (row := {| id := auto_increment s;
                 filename := storageFilename "video" o;
                 size := N.of_nat (length body);
                 created_at := current_timestamp o;
                 updated_at := current_timestamp o |}).
  match goal with
  | |- context [postAll later ?st] => set (s1 := st)
  end.
  assert (Hinv : selectById (auto_increment s) s1 = [row] /\
                 uploads s1 !! filename row = Some body /\
                 auto_increment s < auto_increment s1).
  { subst s1. unfold selectById. simpl. rewrite List.filter_app.
    rewrite (selectById_fresh (auto_increment s) (recordings s) Hwf). simpl.
    rewrite Nat.eqb_refl, lookup_insert_eq. auto. }
  clearbody s1.
  assert (Hend : selectById (auto_increment s) (postAll later s1) = [row] /\
                 uploads (postAll later s1) !! filename row = Some body).
  { revert s1 Hinv. induction Hlater as [|req later Hreq _ IH];
      intros s1 (H1 & H2 & H3); [auto|].
    simpl. apply IH. apply retrievable_post; assumption. }
  destruct Hend as (Hsel & Hfile).
  unfold getRecording. rewrite Hdb, Hsel, Hfile. reflexivity.
Qed.

Lemma round_trip_survives_uploads_witness :
  let o := {| now := 1700000000000%N; random := 123456789%N;
              current_timestamp := 1700000000%N; db_ok := true |} in
  let o2 := {| now := 1700000000001%N; random := 5%N;
               current_timestamp := 1700000000%N; db_ok := true |} in
  let o3 := {| now := 1700000000002%N; random := 5%N;
               current_timestamp := 1700000001%N; db_ok := false |} in
  let body := [Byte.x1a; Byte.x45] in
  getRecording 4 o
    (postAll [(Some [Byte.x00], o2); (None, o2); (Some [Byte.x01], o3)]
       (postRecordings (Some body) o seeded).2)
  = Stream "video/webm" body.
Proof.
  apply (round_trip_survives_uploads seeded _
           {| now := 1700000000000%N; random := 123456789%N;
              current_timestamp := 1700000000%N; db_ok := true |}
           _ [Byte.x1a; Byte.x45] "File uploaded successfully!" 4).
  - repeat constructor.
  - reflexivity.
  - repeat constructor; vm_compute; discriminate.
  - reflexivity.
Defined.

(** X19. Nothing in the service keeps generated file names apart: when a
    later upload is stored under the file name of an earlier one (same
    millisecond, same random number), the earlier recording's id streams the
    later upload's bytes from then on. *)
Theorem colliding_upload_overwrites
    (s s1 s2 : State) (o o2 o' : Outside) (body body2 : list Byte.byte)
    (message message2 : string) (recordingId recordingId2 : nat) :
  ids_below_counter s ->
  postRecordings (Some body) o s = (Created message recordingId, s1) ->
  postRecordings (Some body2) o2 s1 = (Created message2 recordingId2, s2) ->
  now o2 = now o -> random o2 = random o ->
  db_ok o' = true ->
  getRecording recordingId o' s2 = Stream "video/webm" body2 /\
  getRecording recordingId2 o' s2 = Stream "video/webm" body2.
Proof.
  intros Hwf Hpost Hpost2 Hnow Hrand Hdb.
  assert (Hname : storageFilename "video" o2 = storageFilename "video" o)
    by (unfold storageFilename; rewrite Hnow, Hrand; reflexivity).
  unfold postRecordings in Hpost, Hpost2.
  destruct (fileSize <? N.of_nat (length body))%N; [discriminate|].
  destruct (fileSize <? N.of_nat (length body2))%N; [discriminate|].
  destruct (db_ok o); simpl in Hpost; [|discriminate].
  destruct (db_ok o2); simpl in Hpost2; [|discriminate].
  injection Hpost as _ <- <-. simpl in Hpost2.
  injection Hpost2 as _ <- <-.
  unfold getRecording, selectById. rewrite Hdb. simpl.
  rewrite !List.filter_app.
  rewrite (selectById_fresh (auto_increment s) (recordings s) Hwf).
  rewrite (selectById_fresh (S (auto_increment s)) (recordings s))
    by (eapply Forall_impl; [exact Hwf|]; simpl; intros; lia).
  simpl. rewrite Nat.eqb_refl.
  destruct (Nat.eqb_spec (S (auto_increment s)) (auto_increment s)); [lia|].
  destruct (Nat.eqb_spec (auto_increment s) (S (auto_increment s))); [lia|].
  simpl. rewrite Hname, !lookup_insert_eq. auto.
Qed.

Lemma colliding_upload_overwrites_witness :
  let o := {| now := 1700000000000%N; random := 123456789%N;
              current_timestamp := 1700000000%N; db_ok := true |} in
  let s1 := (postRecordings (Some [Byte.x1a]) o seeded).2 in
  let s2 := (postRecordings (Some [Byte.x45; Byte.xdf]) o s1).2 in
  getRecording 4 o s2 = Stream "video/webm" [Byte.x45; Byte.xdf] /\
  getRecording 5 o s2 = Stream "video/webm" [Byte.x45; Byte.xdf].
Proof.
  apply (colliding_upload_overwrites seeded
           (postRecordings (Some [Byte.x1a])
              {| now := 1700000000000%N; random := 123456789%N;
                 current_timestamp := 1700000000%N; db_ok := true |} seeded).2
           (postRecordings (Some [Byte.x45; Byte.xdf])
              {| now := 1700000000000%N; random := 123456789%N;
                 current_timestamp := 1700000000%N; db_ok := true |}
              (postRecordings (Some [Byte.x1a])
                 {| now := 1700000000000%N; random := 123456789%N;
                    current_timestamp := 1700000000%N; db_ok := true |}
                 seeded).2).2
           {| now := 1700000000000%N; random := 123456789%N;
              current_timestamp := 1700000000%N; db_ok := true |}
           {| now := 1700000000000%N; random := 123456789%N;
              current_timestamp := 1700000000%N; db_ok := true |}
           {| now := 1700000000000%N; random := 123456789%N;
              current_timestamp := 1700000000%N; db_ok := true |}
           [Byte.x1a] [Byte.x45; Byte.xdf]
           "File uploaded successfully!" "File uploaded successfully!" 4 5).
  - repeat constructor.
  - reflexivity.
  - reflexivity.
  - reflexivity.
  - reflexivity.
  - reflexivity.
Defined.

(** * Properties of the list of uploaded recordings *)

(** X20. Whatever the outcome of the request, [fetchRecordings] ends with
    [loading] false and leaves the selected recording and the modal alone.
    When the request fails, the list shown before is kept.  The error set is
    the connection-refused message when the error code says so (even if a
    response is attached); otherwise, with a response whose data can be
    read, "Server error: <status> - <message>" with "Unknown error" for a
    missing or empty message; with a response whose data is null or
    undefined, reading the message throws inside the [catch] block and the
    error stays cleared; with no response, the generic message.  When the
    request succeeds the error is cleared and the list is the array received,
    or empty when the body is not an array. *)
Theorem fetchRecordings_outcomes
    (res : RecordingsList.AxiosGet) (l : RecordingsList.ListState) :
  let l' := RecordingsList.fetchRecordings res l in
  RecordingsList.loading l' = false /\
  RecordingsList.selectedRecording l' = RecordingsList.selectedRecording l /\
  RecordingsList.showModal l' = RecordingsList.showModal l /\
  (forall err,
     res = RecordingsList.failed err ->
     RecordingsList.recordings l' = RecordingsList.recordings l /\
     (RecordingsList.code err = "ECONNREFUSED" ->
        RecordingsList.error l' =
          Some "Cannot connect to server. Please ensure the backend is running on port 5000.") /\
     (RecordingsList.code err <> "ECONNREFUSED" ->
        forall status message,
          RecordingsList.response err =
            Some (status, RecordingsList.dataWith message) ->
          RecordingsList.error l' =
            Some ("Server error: " +:+ pretty status +:+ " - " +:+
                  RecordingsList.orUnknown message) /\
          (message = None \/ message = Some "" ->
             RecordingsList.orUnknown message = "Unknown error")) /\
     (RecordingsList.code err <> "ECONNREFUSED" ->
        forall status,
          RecordingsList.response err = Some (status, RecordingsList.dataNull) ->
          RecordingsList.error l' = None) /\
     (RecordingsList.code err <> "ECONNREFUSED" ->
        RecordingsList.response err = None ->
        RecordingsList.error l' =
          Some "Failed to load recordings. Please check your connection.")) /\
  (forall data,
     res = RecordingsList.fulfilled data ->
     RecordingsList.error l' = None /\
     RecordingsList.recordings l' =
       match data with
       | RecordingsList.dataArray rows => rows
       | RecordingsList.dataOther => []
       end).
Proof.
  intros l'. subst l'. unfold RecordingsList.fetchRecordings.
  split; [reflexivity|]. split; [destruct res; repeat case_match; reflexivity|].
  split; [destruct res; repeat case_match; reflexivity|].
  split.
  - intros err ->. split; [repeat case_match; reflexivity|].
    split; [|split; [|split]].
    + intros Hcode. rewrite bool_decide_eq_true_2 by exact Hcode. reflexivity.
    + intros Hcode status message Hresp.
      rewrite bool_decide_eq_false_2 by exact Hcode. rewrite Hresp.
      split; [reflexivity|]. intros [-> | ->]; reflexivity.
    + intros Hcode status Hresp.
      rewrite bool_decide_eq_false_2 by exact Hcode. rewrite Hresp.
      reflexivity.
    + intros Hcode Hresp.
      rewrite bool_decide_eq_false_2 by exact Hcode. rewrite Hresp.
      reflexivity.
  - intros data ->. split; reflexivity.
Qed.

Lemma fetchRecordings_outcomes_witness :
  let err := {| RecordingsList.code := "ERR_BAD_RESPONSE";
                RecordingsList.response :=
                  Some (503, RecordingsList.dataWith (Some "")) |} in
  let err0 := {| RecordingsList.code := "ERR_BAD_RESPONSE";
                 RecordingsList.response := Some (502, RecordingsList.dataNull) |} in
  (RecordingsList.error
     (RecordingsList.fetchRecordings (RecordingsList.failed err)
        RecordingsList.initialList) =
     Some ("Server error: " +:+ pretty 503 +:+ " - " +:+
           RecordingsList.orUnknown (Some "")) /\
   (Some "" = None \/ Some "" = Some "" ->
    RecordingsList.orUnknown (Some "") = "Unknown error")) /\
  RecordingsList.error
    (RecordingsList.fetchRecordings (RecordingsList.failed err0)
       RecordingsList.initialList) = None.
Proof.
  pose proof (fetchRecordings_outcomes
                (RecordingsList.failed
                   {| RecordingsList.code := "ERR_BAD_RESPONSE";
                      RecordingsList.response :=
                        Some (503, RecordingsList.dataWith (Some "")) |})
                RecordingsList.initialList) as (_ & _ & _ & Hfail & _).
  pose proof (fetchRecordings_outcomes
                (RecordingsList.failed
                   {| RecordingsList.code := "ERR_BAD_RESPONSE";
                      RecordingsList.response :=
                        Some (502, RecordingsList.dataNull) |})
                RecordingsList.initialList) as (_ & _ & _ & Hfail0 & _).
  destruct (Hfail _ eq_refl) as (_ & _ & Hresp & _).
  destruct (Hfail0 _ eq_refl) as (_ & _ & _ & Hnull & _).
  split.
  - apply (Hresp ltac:(discriminate) 503 (Some "") eq_refl).
  - apply (Hnull ltac:(discriminate) 502 eq_refl).
Defined.

(** X21. The list component against the service: after fetching from
    [GET /api/recordings], the component is not loading; if the database
    answered, it shows no error and every row of the table exactly once,
    never a row before one created later; if the database failed, it keeps
    the list it had and shows "Server error: 500 - Failed to fetch
    recordings.". *)
Theorem list_shows_service_answer
    (o : Outside) (s : State) (l : RecordingsList.ListState) :
  let l' := RecordingsList.fetchRecordings
              (RecordingsList.axiosGet (getRecordings o s)) l in
  RecordingsList.loading l' = false /\
  (db_ok o = true ->
     RecordingsList.error l' = None /\
     RecordingsList.recordings l' ≡ₚ recordings s /\
     StronglySorted newer_first (RecordingsList.recordings l')) /\
  (db_ok o = false ->
     RecordingsList.error l' =
       Some "Server error: 500 - Failed to fetch recordings." /\
     RecordingsList.recordings l' = RecordingsList.recordings l).
Proof.
  intros l'. subst l'. unfold getRecordings.
  split; [reflexivity|]. split.
  - intros ->. simpl. split; [reflexivity|].
    split; [apply merge_sort_Permutation|apply selectAll_sorted].
  - intros ->. simpl. split; reflexivity.
Qed.

Lemma list_shows_service_answer_witness :
  let o := {| now := 0%N; random := 0%N; current_timestamp := 0%N;
              db_ok := false |} in
  let l' := RecordingsList.fetchRecordings
              (RecordingsList.axiosGet (getRecordings o seeded))
              RecordingsList.initialList in
  RecordingsList.error l' =
    Some "Server error: 500 - Failed to fetch recordings." /\
  RecordingsList.recordings l' =
    RecordingsList.recordings RecordingsList.initialList.
Proof.
  apply (proj2 (proj2 (list_shows_service_answer
                         {| now := 0%N; random := 0%N;
                            current_timestamp := 0%N; db_ok := false |}
                         seeded RecordingsList.initialList))).
  reflexivity.
Defined.

(** * Tracks after a start that fails late *)




(** * Releasing the tracks, whatever happens during the session *)

Import App.

(** ** The log only grows *)

Ltac log_grows :=
  first [ exists []; rewrite app_nil_r; reflexivity
        | rewrite <- ?app_assoc; eexists; reflexivity ].

Lemma calls_grow_stopRecording c m :
  exists new, calls (stopRecording c m) = calls m ++ new.
Proof. destruct (calls_stopRecording c m) as (pre & ->). eexists. reflexivity. Qed.

Lemma calls_grow_acquireAndRecord c p m :
  exists new, calls (acquireAndRecord c p m) = calls m ++ new.
Proof.
  unfold acquireAndRecord.
  destruct (negb (hasGetDisplayMedia p));
    [rewrite calls_catchStart; log_grows|].
  destruct (getDisplayMedia p) as [msg|d];
    [rewrite calls_catchStart; simpl; log_grows|].
  destruct (combinedStream p d) as [s cs].
  destruct (negb (isTypeSupported p vp9) && negb (isTypeSupported p webm));
    [rewrite calls_catchStart; simpl; log_grows|].
  unfold newMediaRecorder.
  destruct (getVideoTracks d);
    [rewrite calls_catchStart; simpl; log_grows|].
  rewrite calls_setSrcObject. unfold recorderStart. simpl.
  rewrite list_lookup_middle by reflexivity. simpl. log_grows.
Qed.

Lemma calls_grow_handle e m : exists new, calls (handle e m) = calls m ++ new.
Proof.
  destruct e; simpl.
  - case_match; [|log_grows].
    apply (calls_grow_acquireAndRecord (st m) p (resetRecording m)).
  - case_match; [|log_grows].
    destruct (calls_grow_acquireAndRecord (st m) p
                (resetRecording (clearRecording m))) as (new & Hn).
    unfold startRecording. rewrite Hn. simpl.
    unfold clearRecording. rewrite calls_setSrcObject. eexists. reflexivity.
  - case_match; [|log_grows]. apply calls_grow_stopRecording.
  - case_match; [|log_grows]. unfold handleUpload.
    repeat case_match; simpl; log_grows.
  - case_match; [|log_grows]. unfold clearRecording.
    rewrite calls_setSrcObject. simpl. log_grows.
  - log_grows.
  - destruct (timerRef m) as [c|]; [|log_grows]. unfold intervalTick.
    case_match; [|log_grows]. simpl. apply calls_grow_stopRecording.
  - unfold ondataavailable. repeat case_match; simpl; log_grows.
  - unfold onstop, stopDelivered.
    destruct (recorders m !! r) as [R|] eqn:HR; [|rewrite HR; log_grows].
    simpl. rewrite list_lookup_insert_eq by (eapply lookup_lt_Some; exact HR).
    simpl. unfold stopTracks. simpl. log_grows.
  - unfold onerror. case_match; [|log_grows].
    destruct (calls_grow_stopRecording (rec_closure r0)
                (setState (setError ("Recording error: " +:+ message)) m))
      as (new & ->).
    simpl. eexists. reflexivity.
  - unfold onended. repeat case_match; try log_grows.
    apply calls_grow_stopRecording.
Qed.

Lemma stops_le_step t e m : stops t (calls m) <= stops t (calls (step e m)).
Proof.
  unfold step. rewrite calls_commit.
  destruct (calls_grow_handle e m) as (new & ->).
  rewrite !stops_app. lia.
Qed.

Lemma stops_le_run t es m : stops t (calls m) <= stops t (calls (run es m)).
Proof.
  revert m. induction es as [|e es IH]; intros m; simpl; [lia|].
  etransitivity; [apply stops_le_step|apply IH].
Qed.

(** ** The stream effect releases what the component lets go *)

(** Whenever an event makes [stream] stop holding [s], the clean-up of the
    [stream] effect stops every track of [s]. *)
Lemma released_when_dropped e m s t :
  stream (st m) = Some s ->
  stream (st (step e m)) <> Some s ->
  In t (tracks s) ->
  stops t (calls m) < stops t (calls (step e m)).
Proof.
  intros Hs Hdrop Hin. unfold step in *. rewrite st_commit in Hdrop.
  rewrite calls_commit, Hs.
  destruct (decide (Some s = stream (st (handle e m)))) as [Heq|_];
    [congruence|].
  destruct (calls_grow_handle e m) as (new & ->).
  rewrite !stops_app.
  pose proof (stops_TrackStop_in t (getTracks s) Hin). lia.
Qed.

Lemma stoppedOrHeld_step s log0 e m :
  stoppedOrHeld s log0 m -> stoppedOrHeld s log0 (step e m).
Proof.
  intros [Hstopped | (Hheld & Hle)].
  - left. intros t Hin. specialize (Hstopped t Hin).
    pose proof (stops_le_step t e m). lia.
  - destruct (decide (stream (st (step e m)) = Some s)) as [Hkeep|Hdrop].
    + right. split; [exact Hkeep|]. intros t. specialize (Hle t).
      pose proof (stops_le_step t e m). lia.
    + left. intros t Hin. specialize (Hle t).
      pose proof (released_when_dropped e m s t Hheld Hdrop Hin). lia.
Qed.

Lemma stoppedOrHeld_run s log0 es m :
  stoppedOrHeld s log0 m -> stoppedOrHeld s log0 (run es m).
Proof.
  revert m. induction es as [|e es IH]; intros m H; simpl; [exact H|].
  apply IH, stoppedOrHeld_step, H.
Qed.

(** ** The interval's closure *)

Lemma stream_stopRecording c m :
  stream (st (stopRecording c m)) = stream (st m) \/
  stream (st (stopRecording c m)) = None.
Proof. rewrite st_stopRecording. destruct (stream c); simpl; auto. Qed.

(** While the component is recording no handler puts a stream into
    [stream]. *)
Lemma stream_handle_recording e m :
  isRecording (st m) = true ->
  stream (st (handle e m)) = stream (st m) \/ stream (st (handle e m)) = None.
Proof.
  intros Hrec. destruct e; simpl; rewrite ?Hrec; simpl; auto.
  - rewrite andb_false_r. auto.
  - apply stream_stopRecording.
  - rewrite andb_false_r. auto.
  - rewrite andb_false_r. auto.
  - destruct (timerRef m) as [c|]; [|auto]. unfold intervalTick.
    case_match; [|auto]. simpl. apply stream_stopRecording.
  - unfold ondataavailable. repeat case_match; auto.
  - unfold onstop, stopDelivered.
    destruct (recorders m !! r) as [R|] eqn:HR; simpl; [|rewrite HR; auto].
    case_match; auto.
  - unfold onerror. case_match; [|auto].
    apply (stream_stopRecording (rec_closure r0)
             (setState (setError ("Recording error: " +:+ message)) m)).
  - unfold onended. repeat case_match; auto. apply stream_stopRecording.
Qed.

Lemma timerHoldsStream_step e m :
  timerHoldsStream m -> timerHoldsStream (step e m).
Proof.
  intros (Hok & Hclo). split; [apply timerOk_step, Hok|].
  intros c x. unfold step. rewrite timerRef_commit, st_commit, timerRef_handle.
  case_bool_decide as Hsame.
  - intros Ht Hx. unfold timerOk in Hok. rewrite Ht in Hok.
    destruct (stream_handle_recording e m Hok) as [Heq|Hnone];
      [|congruence].
    apply Hclo; [exact Ht|congruence].
  - destruct (isRecording (st (handle e m))); [|discriminate].
    intros [= <-] Hx. exact Hx.
Qed.

Lemma timerHoldsStream_run es m :
  timerHoldsStream m -> timerHoldsStream (run es m).
Proof.
  revert m. induction es as [|e es IH]; intros m H; simpl; [exact H|].
  apply IH, timerHoldsStream_step, H.
Qed.

(** C2, as the code behaves on manual stop and on timeout.  In a session
    begun by one of the two start buttons, the stream kept in [stream] holds
    every screen-capture track and every microphone audio track.  Whatever
    events occur after the start, if the component is still recording then
    pressing Stop, and likewise the timer tick that reaches 180, leaves it
    not recording with every track of that stream stopped at least once since
    the start; and the recorder's [stop] handler, whenever it runs, stops
    each of them once more. *)
Theorem tracks_stopped_on_stop_and_timeout
    (e : Event) (p : Platform) (m : Machine) :
  begins e p ->
  isRecording (st m) = false ->
  isRecording (st (step e m)) = true ->
  let m1 := step e m in
  let r := length (recorders m) in
  exists s,
    stream (st m1) = Some s /\
    (forall d, getDisplayMedia p = inr d ->
       forall t, In t (tracks d) -> In t (tracks s)) /\
    (forall mic, getUserMedia p = inr mic ->
       forall t, In t (getAudioTracks mic) -> In t (tracks s)) /\
    forall t, In t (tracks s) ->
    forall es : list Event,
      let m' := run es m1 in
      (isRecording (st m') = true ->
         (stops t (calls m1) < stops t (calls (step ClickStop m')) /\
          isRecording (st (step ClickStop m')) = false) /\
         ((recordingTime (st m') + 1 >= MAX_RECORDING_TIME)%Z ->
          stops t (calls m1) < stops t (calls (step Tick m')) /\
          isRecording (st (step Tick m')) = false)) /\
      stops t (calls m') < stops t (calls (step (RecorderStopped r) m')).
Proof.
  intros Hb Hoff Hon m1 r.
  destruct (begin_session e p m Hb Hoff Hon) as (d & Hcan & Hst & Hrs & Ht).
  fold m1 in Hst, Hrs, Ht. fold r in Hst. cbv zeta in Hst.
  set (s := (combinedStream p d).1) in *.
  assert (Hs : stream (st m1) = Some s) by (rewrite Hst; reflexivity).
  destruct (combinedStream_covers p d) as (Hcov1 & Hcov2).
  exists s. split; [exact Hs|].
  split.
  { intros d' Hd'. destruct Hcan as (_ & Hd & _).
    assert (d' = d) by congruence. subst d'. exact Hcov1. }
  split; [exact Hcov2|].
  intros t Hin es m'.
  assert (Hinv : stoppedOrHeld s (calls m1) m').
  { apply stoppedOrHeld_run. right. split; [exact Hs|]. intros; lia. }
  assert (Htimer : timerHoldsStream m').
  { apply timerHoldsStream_run. split.
    - unfold timerOk. rewrite Ht. exact Hon.
    - intros c x Hc Hx. rewrite Ht in Hc. injection Hc as <-. exact Hx. }
  split.
  - intros Hrec. split.
    + assert (Hstep : step ClickStop m' =
                      commit (st m') (stopRecording (st m') m'))
        by (unfold step; simpl; rewrite Hrec; reflexivity).
      rewrite Hstep, st_commit, isRecording_stopRecording.
      split; [|reflexivity].
      eapply Nat.lt_le_trans; [|apply stops_commit].
      destruct Hinv as [Hstopped | (Hheld & Hle)].
      * specialize (Hstopped t Hin).
        destruct (calls_grow_stopRecording (st m') m') as (new & ->).
        rewrite stops_app. lia.
      * specialize (Hle t).
        pose proof (stops_stopRecording (st m') m' s t Hheld Hin). lia.
    + intros Hlimit.
      destruct Htimer as (Hok & Hclo). unfold timerOk in Hok.
      destruct (timerRef m') as [c|] eqn:Hc; [|congruence].
      assert (Hstep : step Tick m' =
                      commit (st m')
                        (setState (setRecordingTime MAX_RECORDING_TIME)
                           (stopRecording c m')))
        by (unfold step; simpl; rewrite Hc, intervalTick_limit by exact Hlimit;
            reflexivity).
      rewrite Hstep, st_commit. simpl. rewrite isRecording_stopRecording.
      split; [|reflexivity].
      eapply Nat.lt_le_trans; [|apply stops_commit]. simpl.
      destruct Hinv as [Hstopped | (Hheld & Hle)].
      * specialize (Hstopped t Hin).
        destruct (calls_grow_stopRecording c m') as (new & ->).
        rewrite stops_app. lia.
      * specialize (Hle t).
        pose proof (stops_stopRecording c m' s t
                      (Hclo c s eq_refl Hheld) Hin). lia.
  - assert (HR : recorders m1 !! r = Some (startedRecorder (st m) p d))
      by (rewrite Hrs; apply list_lookup_middle; reflexivity).
    destruct (kept_run es m1 r _ HR) as (R' & HR' & (_ & Hstream & _)).
    fold m' in HR'.
    destruct (calls_RecorderStopped r R' m' HR') as (pre & post & ->).
    rewrite Hstream, !stops_app. simpl.
    pose proof (stops_TrackStop_in t (getTracks s) Hin). fold s. lia.
Qed.

Lemma tracks_stopped_witness :
  let m1 := step (ClickStart platformWithMic) initialMachine in
  exists s,
    stream (st m1) = Some s /\
    (forall d, getDisplayMedia platformWithMic = inr d ->
       forall t, In t (tracks d) -> In t (tracks s)) /\
    (forall mic, getUserMedia platformWithMic = inr mic ->
       forall t, In t (getAudioTracks mic) -> In t (tracks s)) /\
    forall t, In t (tracks s) ->
    forall es : list Event,
      let m' := run es m1 in
      (isRecording (st m') = true ->
         (stops t (calls m1) < stops t (calls (step ClickStop m')) /\
          isRecording (st (step ClickStop m')) = false) /\
         ((recordingTime (st m') + 1 >= MAX_RECORDING_TIME)%Z ->
          stops t (calls m1) < stops t (calls (step Tick m')) /\
          isRecording (st (step Tick m')) = false)) /\
      stops t (calls m') < stops t (calls (step (RecorderStopped 0) m')).
Proof.
  apply (tracks_stopped_on_stop_and_timeout (ClickStart platformWithMic)
           platformWithMic initialMachine).
  - left. reflexivity.
  - reflexivity.
  - reflexivity.
Defined.

(** * An encoder error *)

Lemma st_RecorderStopped r R m :
  recorders m !! r = Some R ->
  st (step (RecorderStopped r) m) =
  setStream None
    (setRecordedChunks [newBlob (rec_chunks R) (rec_mimeType R)]
       (setRecordingUrl (Some (length (objectUrls m))) (st m))).
Proof.
  intros HR. unfold step. rewrite st_commit. simpl.
  unfold onstop, stopDelivered. rewrite HR. simpl.
  rewrite list_lookup_insert_eq by (eapply lookup_lt_Some; exact HR).
  reflexivity.
Qed.

Lemma errorRaised_frame r m :
  st (errorRaised r m) = st m /\ calls (errorRaised r m) = calls m /\
  timerRef (errorRaised r m) = timerRef m.
Proof. unfold errorRaised. destruct (recorders m !! r); auto. Qed.

Lemma errorRaised_recorder r R m :
  recorders m !! r = Some R ->
  exists R', recorders (errorRaised r m) !! r = Some R' /\
             rec_state R' = inactive /\ rec_chunks R' = rec_chunks R /\
             sameSession R R'.
Proof.
  intros HR. unfold errorRaised. rewrite HR. simpl.
  eexists. split; [apply list_lookup_insert_eq; eapply lookup_lt_Some, HR|].
  repeat split.
Qed.

Lemma timerRef_none_of_timerOk m :
  timerOk m -> isRecording (st m) = false -> timerRef m = None.
Proof.
  unfold timerOk. intros Hok Hoff.
  destruct (timerRef m); [congruence|reflexivity].
Qed.

(** X9. An encoder error in a session begun by one of the start buttons,
    after any events: the platform inactivates the recorder, fires [error]
    and then [stop].  The error handler shows "Recording error: ..." and
    leaves the recording state with the interval cleared and the counter
    where it was; the [stop] handler that follows keeps that message, builds
    the one artifact from the data delivered so far, clears [stream], and by
    then every track of the session's stream has been stopped at least once
    since the start. *)
Theorem encoder_error_ends_session
    (e : Event) (p : Platform) (m : Machine) (es : list Event)
    (message : string) :
  begins e p ->
  isRecording (st m) = false ->
  isRecording (st (step e m)) = true ->
  let r := length (recorders m) in
  let m1 := step e m in
  let m2 := step (RecorderError r message) (errorRaised r (run es m1)) in
  let m3 := step (RecorderStopped r) m2 in
  (error (st m2) = "Recording error: " +:+ message /\
   isRecording (st m2) = false /\
   timerRef m2 = None /\
   recordingTime (st m2) = recordingTime (st (run es m1))) /\
  (error (st m3) = "Recording error: " +:+ message /\
   isRecording (st m3) = false /\
   timerRef m3 = None /\
   stream (st m3) = None /\
   recordedChunks (st m3) =
     [newBlob (delivered r es) (if isTypeSupported p vp9 then vp9 else webm)]) /\
  exists s,
    stream (st m1) = Some s /\
    forall t, In t (tracks s) -> stops t (calls m1) < stops t (calls m3).
Proof.
  intros Hb Hoff Hon r m1 m2 m3.
  destruct (begin_session e p m Hb Hoff Hon) as (d & Hcan & Hst & Hrs & Ht).
  fold m1 in Hst, Hrs, Ht. fold r in Hst. cbv zeta in Hst.
  set (s := (combinedStream p d).1) in *.
  assert (HR1 : recorders m1 !! r = Some (startedRecorder (st m) p d))
    by (rewrite Hrs; apply list_lookup_middle; reflexivity).
  (* the recorder when the error is raised *)
  destruct (chunks_run es m1 r _ HR1) as (Ra & HRa & Hca & Hma).
  destruct (kept_run es m1 r _ HR1) as (Ra' & HRa' & (_ & Hsa & _ & Hcloa)).
  assert (Ra' = Ra) by congruence. subst Ra'.
  destruct (errorRaised_recorder r Ra _ HRa)
    as (Rb & HRb & _ & Hcb & (Hmb & Hsb & _ & Hclob)).
  destruct (errorRaised_frame r (run es m1)) as (Hste & Hcallse & Htime).
  set (me := errorRaised r (run es m1)) in *.
  (* the error handler *)
  assert (Hm2 : m2 = commit (st me)
                  (stopRecording (rec_closure Rb)
                     (setState (setError ("Recording error: " +:+ message)) me)))
    by (subst m2; unfold step; simpl; unfold onerror; rewrite HRb; reflexivity).
  assert (Hok1 : timerOk m1) by (unfold timerOk; rewrite Ht; exact Hon).
  assert (Hoke : timerOk me).
  { pose proof (timerOk_run es m1 Hok1) as H0. unfold timerOk in *.
    rewrite Htime, Hste. exact H0. }
  assert (Hok2 : timerOk m2) by (apply timerOk_step, Hoke).
  assert (Hoff2 : isRecording (st m2) = false)
    by (rewrite Hm2, st_commit; apply isRecording_stopRecording).
  assert (Herr2 : error (st m2) = "Recording error: " +:+ message)
    by (rewrite Hm2, st_commit, st_stopRecording;
        destruct (stream (rec_closure Rb)); reflexivity).
  (* the recorder when the stop event arrives *)
  destruct (chunks_step (RecorderError r message) me r Rb HRb)
    as (Rc & HRc & Hcc & Hmc).
  fold m2 in HRc. simpl in Hcc. rewrite app_nil_r in Hcc.
  destruct (kept_step (RecorderError r message) me r Rb HRb)
    as (Rc' & HRc' & (_ & Hsc & _)).
  fold m2 in HRc'. assert (Rc' = Rc) by congruence. subst Rc'.
  assert (Hst3 := st_RecorderStopped r Rc m2 HRc). fold m3 in Hst3.
  assert (Hok3 : timerOk m3) by (apply timerOk_step, Hok2).
  assert (Hoff3 : isRecording (st m3) = false) by (rewrite Hst3; exact Hoff2).
  split; [|split].
  - split; [exact Herr2|]. split; [exact Hoff2|].
    split; [apply timerRef_none_of_timerOk; assumption|].
    rewrite Hm2, st_commit, recordingTime_stopRecording. simpl.
    rewrite Hste. reflexivity.
  - split; [rewrite Hst3; exact Herr2|]. split; [exact Hoff3|].
    split; [apply timerRef_none_of_timerOk; assumption|].
    split; [rewrite Hst3; reflexivity|].
    rewrite Hst3. simpl. rewrite Hcc, Hcb, Hca, Hmc, Hmb, Hma. reflexivity.
  - exists s. split; [rewrite Hst; reflexivity|].
    intros t Hin.
    destruct (calls_RecorderStopped r Rc m2 HRc) as (pre & post & Hcalls3).
    fold m3 in Hcalls3. rewrite Hcalls3, !stops_app.
    rewrite Hsc, Hsb, Hsa. simpl. fold s.
    pose proof (stops_TrackStop_in t (getTracks s) Hin).
    pose proof (stops_le_run t es m1) as Hle1.
    pose proof (stops_le_step t (RecorderError r message) me) as Hle2.
    fold m2 in Hle2. rewrite Hcallse in Hle2. lia.
Qed.

Lemma encoder_error_witness :
  let d1 := {| blob_data := [Byte.x1a; Byte.x45]; blob_type := "" |} in
  let es := [Tick; DataAvailable 0 (Some d1); Tick] in
  let m1 := step (ClickStart platformWithMic) initialMachine in
  let m2 := step (RecorderError 0 "encoder failed")
              (errorRaised 0 (run es m1)) in
  let m3 := step (RecorderStopped 0) m2 in
  (error (st m2) = "Recording error: " +:+ "encoder failed" /\
   isRecording (st m2) = false /\
   timerRef m2 = None /\
   recordingTime (st m2) = recordingTime (st (run es m1))) /\
  (error (st m3) = "Recording error: " +:+ "encoder failed" /\
   isRecording (st m3) = false /\
   timerRef m3 = None /\
   stream (st m3) = None /\
   recordedChunks (st m3) = [newBlob (delivered 0 es) webm]) /\
  exists s,
    stream (st m1) = Some s /\
    forall t, In t (tracks s) -> stops t (calls m1) < stops t (calls m3).
Proof.
  apply (encoder_error_ends_session (ClickStart platformWithMic)
           platformWithMic initialMachine
           [Tick;
            DataAvailable 0
              (Some {| blob_data := [Byte.x1a; Byte.x45]; blob_type := "" |});
            Tick]
           "encoder failed").
  - left. reflexivity.
  - reflexivity.
  - reflexivity.
Defined.
